(** * whids manager: certificate generation and entry point

    Shallow embedding of [tools/manager/whids-man.go].

    The Go program is effectful: it draws randomness, reads the clock,
    opens and writes files, logs and may terminate the process.  The
    embedding threads an explicit [World] (file system and a chronological
    trace of the calls made to the outside) through a small outcome monad.
    Everything the program obtains from the Go standard library or from
    packages that are not part of this file ([net.ParseIP],
    [rsa.GenerateKey], [rand.Int], [x509.CreateCertificate], failures of
    [os.OpenFile] and [pem.Encode], ...) is read from an [Env] record, so
    that every theorem quantifies over all behaviours of those calls. *)

From Stdlib Require Import ZArith Lia Permutation Ascii String DecimalString.
From stdpp Require Import gmap strings list.

Local Open Scope Z_scope.

(** ** Go values used by the program *)

(** [error]: [None] is Go's [nil]. *)
Definition error := option string.

(** [fmt.Errorf(prefix ++ "%s", err)] *)
Definition Errorf (s : string) : error := Some s.

(** [net.IP] is a byte slice. *)
Definition IP := list Byte.byte.

(** [time.Time] as nanoseconds since the epoch, [time.Duration] as a
    number of nanoseconds. *)
Definition Time := Z.
Definition Duration := Z.

Definition Nanosecond : Duration := 1.
Definition Microsecond : Duration := 1000 * Nanosecond.
Definition Millisecond : Duration := 1000 * Microsecond.
Definition Second : Duration := 1000 * Millisecond.
Definition Minute : Duration := 60 * Second.
Definition Hour : Duration := 60 * Minute.

Definition time_Add (t : Time) (d : Duration) : Time := t + d.

(** Keys.  The program stores the private key in an [interface{}] and
    dispatches on its dynamic type; the sum type below lists the dynamic
    types the two type switches distinguish. *)
Record rsa_PublicKey := { rsa_N : Z; rsa_E : Z }.
Record rsa_PrivateKey := {
  rsa_Public : rsa_PublicKey;
  rsa_D : Z;
  rsa_Primes : list Z }.
Record ecdsa_PublicKey := { ecdsa_Curve : string; ecdsa_X : Z; ecdsa_Y : Z }.
Record ecdsa_PrivateKey := { ecdsa_Public : ecdsa_PublicKey; ecdsa_D : Z }.

Inductive PrivIface :=
| PrivRSA (k : rsa_PrivateKey)
| PrivECDSA (k : ecdsa_PrivateKey)
| PrivOther (dyntype : string).

Inductive PubIface :=
| PubRSA (k : rsa_PublicKey)
| PubECDSA (k : ecdsa_PublicKey)
| PubNil.

(** [N.BitLen()] of an RSA modulus. *)
Definition BitLen (n : Z) : Z := if n =? 0 then 0 else Z.log2 (Z.abs n) + 1.

(** [x509.KeyUsage] bit flags and [x509.ExtKeyUsage] enumeration (values
    of the constants in [crypto/x509]). *)
Definition KeyUsageDigitalSignature : Z := Z.shiftl 1 0.
Definition KeyUsageContentCommitment : Z := Z.shiftl 1 1.
Definition KeyUsageKeyEncipherment : Z := Z.shiftl 1 2.
Definition KeyUsageDataEncipherment : Z := Z.shiftl 1 3.
Definition KeyUsageKeyAgreement : Z := Z.shiftl 1 4.
Definition KeyUsageCertSign : Z := Z.shiftl 1 5.
Definition KeyUsageCRLSign : Z := Z.shiftl 1 6.
Definition KeyUsageEncipherOnly : Z := Z.shiftl 1 7.
Definition KeyUsageDecipherOnly : Z := Z.shiftl 1 8.

Inductive ExtKeyUsage :=
| ExtKeyUsageAny
| ExtKeyUsageServerAuth
| ExtKeyUsageClientAuth
| ExtKeyUsageCodeSigning
| ExtKeyUsageEmailProtection
| ExtKeyUsageOther (n : Z).

(** The fields of [x509.Certificate] that the program sets; every other
    field keeps its zero value. *)
Record Certificate := {
  SerialNumber : Z;
  Subject_Organization : list string;
  NotBefore : Time;
  NotAfter : Time;
  KeyUsage : Z;
  ExtKeyUsages : list ExtKeyUsage;
  BasicConstraintsValid : bool;
  IPAddresses : list IP;
  DNSNames : list string }.

(** [pem.Block] *)
Record pem_Block := { pem_Type : string; pem_Bytes : list Byte.byte }.

(** ** The world the program acts on *)

Inductive OpenFlag := O_WRONLY | O_CREATE | O_TRUNC.

(** The file mode written [0600] in the source (octal). *)
Definition mode_0600 : Z := 6 * 64 + 0 * 8 + 0.

#[global] Instance OpenFlag_eq_dec : EqDecision OpenFlag.
Proof. solve_decision. Defined.

Record File := { perm : Z; data : list Byte.byte }.

Inductive Event :=
| EvGenerateKey (bits : Z)
| EvNow
| EvRandInt (limit : Z)
| EvCreateCertificate (template parent : Certificate)
                      (pub : PubIface) (priv : PrivIface)
| EvMarshalPKCS1 (k : rsa_PrivateKey)
| EvMarshalEC (k : ecdsa_PrivateKey)
| EvOpenFile (name : string) (flags : list OpenFlag) (mode : Z)
| EvPemEncode (name : string) (b : pem_Block)
| EvClose (name : string)
| EvLogInfo (msg : string)
| EvStderr (msg : string)
| EvStdout (msg : string).

Record World := {
  files : gmap string File;
  trace : list Event }.

(** What the standard library and the operating system answer.  Failure
    oracles return the error text, [None] meaning success. *)
Record Env := {
  net_ParseIP : string -> option IP;
  rsa_GenerateKey_res : Z -> rsa_PrivateKey + string;
  time_Now_res : Time;
  rand_Int_res : Z -> Z + string;
  x509_CreateCertificate_res :
    Certificate -> Certificate -> PubIface -> PrivIface ->
    list Byte.byte + string;
  x509_MarshalPKCS1PrivateKey_res : rsa_PrivateKey -> list Byte.byte;
  x509_MarshalECPrivateKey_res : ecdsa_PrivateKey -> list Byte.byte + string;
  os_OpenFile_err : string -> option string;
  pem_Encode_err : string -> option string;
  pem_EncodeToMemory : pem_Block -> list Byte.byte;
  file_Close_err : string -> option string }.

(** ** Outcome monad *)

Inductive Outcome (A : Type) :=
| Done (a : A)
| Exited (code : Z)
| Fatal (msg : string)
| Panicked (msg : string).
Arguments Done {A} a.
Arguments Exited {A} code.
Arguments Fatal {A} msg.
Arguments Panicked {A} msg.

Definition M (A : Type) : Type := World -> Outcome A * World.

Definition ret {A} (a : A) : M A := fun w => (Done a, w).

Definition bind {A B} (m : M A) (k : A -> M B) : M B :=
  fun w =>
    match m w with
    | (Done a, w') => k a w'
    | (Exited c, w') => (Exited c, w')
    | (Fatal s, w') => (Fatal s, w')
    | (Panicked s, w') => (Panicked s, w')
    end.

Declare Scope go_scope.
Delimit Scope go_scope with go.
Notation "x <- m ;; k" := (bind m (fun x => k))
  (at level 100, m at next level, right associativity) : go_scope.
Notation "m ;;; k" := (bind m (fun _ => k))
  (at level 100, right associativity) : go_scope.
Local Open Scope go_scope.

Definition emit (e : Event) : M unit :=
  fun w => (Done tt, {| files := files w; trace := trace w ++ [e] |}).

(** [os.Exit(code)] *)
Definition os_Exit {A} (code : Z) : M A := fun w => (Exited code, w).

(** [log.LogErrorAndExit(err)] of golang-utils: log, then leave the
    process with a failure status. *)
Definition log_LogErrorAndExit {A} (msg : string) : M A :=
  fun w => (Fatal msg, w).

Definition panic {A} (msg : string) : M A := fun w => (Panicked msg, w).

Definition log_Info (msg : string) : M unit := emit (EvLogInfo msg).

(** ** Calls to the standard library *)

Section CertGen.
Variable env : Env.

(** [rsa.GenerateKey(rand.Reader, bits)] *)
Definition rsa_GenerateKey (bits : Z) : M (rsa_PrivateKey + string) :=
  emit (EvGenerateKey bits) ;;; ret (rsa_GenerateKey_res env bits).

(** [time.Now()] *)
Definition time_Now : M Time := emit EvNow ;;; ret (time_Now_res env).

(** [rand.Int(rand.Reader, max)] *)
Definition rand_Int (max : Z) : M (Z + string) :=
  emit (EvRandInt max) ;;; ret (rand_Int_res env max).

(** [x509.CreateCertificate(rand.Reader, template, parent, pub, priv)] *)
Definition x509_CreateCertificate (template parent : Certificate)
    (pub : PubIface) (priv : PrivIface) : M (list Byte.byte + string) :=
  emit (EvCreateCertificate template parent pub priv) ;;;
  ret (x509_CreateCertificate_res env template parent pub priv).

(** [x509.MarshalPKCS1PrivateKey(k)] *)
Definition x509_MarshalPKCS1PrivateKey (k : rsa_PrivateKey)
    : M (list Byte.byte) :=
  emit (EvMarshalPKCS1 k) ;;; ret (x509_MarshalPKCS1PrivateKey_res env k).

(** [x509.MarshalECPrivateKey(k)] *)
Definition x509_MarshalECPrivateKey (k : ecdsa_PrivateKey)
    : M (list Byte.byte + string) :=
  emit (EvMarshalEC k) ;;; ret (x509_MarshalECPrivateKey_res env k).

Definition has_flag (f : OpenFlag) (flags : list OpenFlag) : bool :=
  bool_decide (f ∈ flags).

(** [os.OpenFile(name, flags, mode)]: a failing open leaves the file
    system as it is; a successful one creates a missing file with the
    given mode when [O_CREATE] is set and empties an existing one when
    [O_TRUNC] is set (its mode is then kept). *)
Definition os_OpenFile (name : string) (flags : list OpenFlag) (mode : Z)
    : M error :=
  emit (EvOpenFile name flags mode) ;;;
  fun w =>
    match os_OpenFile_err env name with
    | Some e => (Done (Some e), w)
    | None =>
      match files w !! name with
      | Some f =>
        if has_flag O_TRUNC flags
        then (Done None,
              {| files := <[name := {| perm := perm f; data := [] |}]> (files w);
                 trace := trace w |})
        else (Done None, w)
      | None =>
        if has_flag O_CREATE flags
        then (Done None,
              {| files := <[name := {| perm := mode; data := [] |}]> (files w);
                 trace := trace w |})
        else (Done (Some "no such file or directory"), w)
      end
    end.

Definition append_data (bs : list Byte.byte) (f : File) : File :=
  {| perm := perm f; data := data f ++ bs |}.

(** [pem.Encode(out, b)] on the file [name]: a nil block is dereferenced
    (run-time panic); a failing write returns its error and, in this
    model, leaves the file as it was. *)
Definition pem_Encode (name : string) (b : option pem_Block) : M error :=
  match b with
  | None => panic "invalid memory address or nil pointer dereference"
  | Some blk =>
    emit (EvPemEncode name blk) ;;;
    fun w =>
      match pem_Encode_err env name with
      | Some e => (Done (Some e), w)
      | None =>
        (Done None,
         {| files := alter (append_data (pem_EncodeToMemory env blk)) name
                           (files w);
            trace := trace w |})
      end
  end.

(** [f.Close()] *)
Definition file_Close (name : string) : M error :=
  emit (EvClose name) ;;; ret (file_Close_err env name).

(** ** The program *)

Definition defaultOrg : string := "WHIDS Manager".
Definition defaultCertValidity : Duration := Hour * 24 * 365.

Definition publicKey (priv : PrivIface) : PubIface :=
  match priv with
  | PrivRSA k => PubRSA (rsa_Public k)
  | PrivECDSA k => PubECDSA (ecdsa_Public k)
  | PrivOther _ => PubNil
  end.

Definition pemBlockForKey (priv : PrivIface) : M (option pem_Block) :=
  match priv with
  | PrivRSA k =>
    bs <- x509_MarshalPKCS1PrivateKey k ;;
    ret (Some {| pem_Type := "RSA PRIVATE KEY"; pem_Bytes := bs |})
  | PrivECDSA k =>
    r <- x509_MarshalECPrivateKey k ;;
    match r with
    | inr err =>
      emit (EvStderr ("Unable to marshal ECDSA private key: " +:+ err)) ;;;
      os_Exit 2
    | inl b => ret (Some {| pem_Type := "EC PRIVATE KEY"; pem_Bytes := b |})
    end
  | PrivOther _ => ret None
  end.

(** One iteration of the loop over [hosts]. *)
Definition addHost (template : Certificate) (h : string) : Certificate :=
  match net_ParseIP env h with
  | Some ip =>
    {| SerialNumber := SerialNumber template;
       Subject_Organization := Subject_Organization template;
       NotBefore := NotBefore template;
       NotAfter := NotAfter template;
       KeyUsage := KeyUsage template;
       ExtKeyUsages := ExtKeyUsages template;
       BasicConstraintsValid := BasicConstraintsValid template;
       IPAddresses := IPAddresses template ++ [ip];
       DNSNames := DNSNames template |}
  | None =>
    {| SerialNumber := SerialNumber template;
       Subject_Organization := Subject_Organization template;
       NotBefore := NotBefore template;
       NotAfter := NotAfter template;
       KeyUsage := KeyUsage template;
       ExtKeyUsages := ExtKeyUsages template;
       BasicConstraintsValid := BasicConstraintsValid template;
       IPAddresses := IPAddresses template;
       DNSNames := DNSNames template ++ [h] |}
  end.

Definition generateCert (hosts : list string) : M error :=
  if (length hosts =? 0)%nat then
    ret (Errorf "Missing required --host parameter")
  else
  r <- rsa_GenerateKey 4096 ;;
  match r with
  | inr err => ret (Errorf ("failed to generate private key: " +:+ err))
  | inl k =>
  let priv := PrivRSA k in
  notBefore <- time_Now ;;
  let notAfter := time_Add notBefore defaultCertValidity in
  let serialNumberLimit := Z.shiftl 1 128 in
  r <- rand_Int serialNumberLimit ;;
  match r with
  | inr err => ret (Errorf ("failed to generate serial number: " +:+ err))
  | inl serialNumber =>
  let template :=
    {| SerialNumber := serialNumber;
       Subject_Organization := [defaultOrg];
       NotBefore := notBefore;
       NotAfter := notAfter;
       KeyUsage := Z.lor KeyUsageKeyEncipherment KeyUsageDigitalSignature;
       ExtKeyUsages := [ExtKeyUsageServerAuth];
       BasicConstraintsValid := true;
       IPAddresses := [];
       DNSNames := [] |} in
  let template := fold_left addHost hosts template in
  r <- x509_CreateCertificate template template (publicKey priv) priv ;;
  match r with
  | inr err => ret (Errorf ("Failed to create certificate: " +:+ err))
  | inl derBytes =>
  err <- os_OpenFile "cert.pem" [O_WRONLY; O_CREATE; O_TRUNC] mode_0600 ;;
  match err with
  | Some err =>
    ret (Errorf ("failed to open cert.pem for writing: " +:+ err))
  | None =>
  _ <- pem_Encode "cert.pem"
         (Some {| pem_Type := "CERTIFICATE"; pem_Bytes := derBytes |}) ;;
  _ <- file_Close "cert.pem" ;;
  log_Info "Written cert.pem" ;;;
  err <- os_OpenFile "key.pem" [O_WRONLY; O_CREATE; O_TRUNC] mode_0600 ;;
  match err with
  | Some err =>
    ret (Errorf ("failed to open key.pem for writing: " +:+ err))
  | None =>
  blk <- pemBlockForKey priv ;;
  _ <- pem_Encode "key.pem" blk ;;
  _ <- file_Close "key.pem" ;;
  log_Info "Written key.pem" ;;;
  ret None
  end end end end end.

End CertGen.

(** ** Entry point

    [collector.ManagerConfig], [collector.Manager] and the functions of
    package [collector] are declared outside this file: the configuration
    type is a parameter with its [Host] field, and the calls are answered
    by [MainEnv], as are the command line and [encoding/json]. *)

Section Main.
Variable ManagerConfig : Type.
Variable Manager : Type.

Record MainEnv := {
  (** command line: [-key], [-certgen], [-dump-config], [flag.Arg(0)] *)
  flag_keygen : bool;
  flag_certgen : bool;
  flag_dumpConfig : bool;
  flag_Arg0 : string;
  (** [collector.KeyGen(collector.DefaultKeySize)] *)
  collector_KeyGen_res : string;
  (** [collector.ManagerConfig{}] and its [Host] field *)
  ManagerConfig_zero : ManagerConfig;
  Host : ManagerConfig -> string;
  (** [json.MarshalIndent(v, prefix, indent)] *)
  json_MarshalIndent_res : ManagerConfig -> string -> string -> string + string;
  (** failures of [os.Open] and [ioutil.ReadAll] by file name *)
  os_Open_err : string -> option string;
  ioutil_ReadAll_err : string -> option string;
  (** [json.Unmarshal(b, &v)]: the updated [v], or an error *)
  json_Unmarshal_res :
    list Byte.byte -> ManagerConfig -> ManagerConfig + string;
  (** [collector.NewManager(&conf)] *)
  collector_NewManager_res : ManagerConfig -> Manager + string;
  (** what the manager's life cycle (signal handler, [Run], [Wait]) does
      to the world; it is concurrent code and is not modelled here *)
  manager_lifecycle : Manager -> M unit }.

Variable env : Env.
Variable menv : MainEnv.

Definition fmt_Printf (s : string) : M unit := emit (EvStdout s).
Definition fmt_Println (s : string) : M unit := emit (EvStdout (s +:+ "
")).
Definition log_Infof (s : string) : M unit := emit (EvLogInfo s).

(** [os.Open(name)] followed by [ioutil.ReadAll(fd)] succeed on a file
    that exists when neither oracle reports a failure. *)
Definition os_Open (name : string) : M (string + string) :=
  fun w =>
    match os_Open_err menv name with
    | Some e => (Done (inr e), w)
    | None =>
      match files w !! name with
      | Some _ => (Done (inl name), w)
      | None => (Done (inr "no such file or directory"), w)
      end
    end.

Definition ioutil_ReadAll (fd : string) : M (list Byte.byte + string) :=
  fun w =>
    match ioutil_ReadAll_err menv fd with
    | Some e => (Done (inr e), w)
    | None =>
      match files w !! fd with
      | Some f => (Done (inl (data f)), w)
      | None => (Done (inr "bad file descriptor"), w)
      end
    end.

Definition main : M unit :=
  let config := flag_Arg0 menv in
  (if flag_keygen menv then
     let key := collector_KeyGen_res menv in
     fmt_Printf ("New API key: " +:+ key +:+ "
") ;;;
     fmt_Printf "Please manually update client and manager configuration file to make it effective
" ;;;
     os_Exit 0
   else ret tt) ;;;
  (if flag_dumpConfig menv then
     match json_MarshalIndent_res menv (ManagerConfig_zero menv) "" "    " with
     | inr err => panic err
     | inl b => fmt_Println b ;;; os_Exit 0
     end
   else ret tt) ;;;
  r <- os_Open config ;;
  match r with
  | inr err =>
    log_LogErrorAndExit ("Failed to open configuration file: " +:+ err)
  | inl fd =>
  r <- ioutil_ReadAll fd ;;
  match r with
  | inr err =>
    log_LogErrorAndExit ("Failed to read configuration file: " +:+ err)
  | inl b =>
  (* [managerConf] is a package variable, still zero at this point *)
  match json_Unmarshal_res menv b (ManagerConfig_zero menv) with
  | inr err =>
    log_LogErrorAndExit ("Failed to parse configuration data: " +:+ err)
  | inl managerConf =>
  (if flag_certgen menv then
     err <- generateCert env [Host menv managerConf] ;;
     match err with
     | Some err =>
       log_LogErrorAndExit ("Failed to generate key/cert pair: " +:+ err)
     | None =>
       log_Infof "Certificate and key generated should be used for testing purposes only." ;;;
       os_Exit 0
     end
   else ret tt) ;;;
  match collector_NewManager_res menv managerConf with
  | inr err => log_LogErrorAndExit ("Failed to create manager: " +:+ err)
  | inl manager => manager_lifecycle menv manager
  end
  end end end.

End Main.

Arguments flag_keygen {ManagerConfig Manager} _.
Arguments flag_certgen {ManagerConfig Manager} _.
Arguments flag_dumpConfig {ManagerConfig Manager} _.
Arguments flag_Arg0 {ManagerConfig Manager} _.
Arguments ManagerConfig_zero {ManagerConfig Manager} _.
Arguments Host {ManagerConfig Manager} _ _.
Arguments os_Open_err {ManagerConfig Manager} _ _.
Arguments ioutil_ReadAll_err {ManagerConfig Manager} _ _.
Arguments json_Unmarshal_res {ManagerConfig Manager} _ _ _.
Arguments json_MarshalIndent_res {ManagerConfig Manager} _ _ _ _.
Arguments collector_NewManager_res {ManagerConfig Manager} _ _.
Arguments manager_lifecycle {ManagerConfig Manager} _ _.
Arguments main {ManagerConfig Manager} env menv.

(** [[]byte(s)] *)
Definition bytes_of_string (s : string) : list Byte.byte :=
  List.map byte_of_ascii (list_ascii_of_string s).

(** ** Configuration text: [encoding/json]

    [main] prints
    [json.MarshalIndent(collector.ManagerConfig{}, "", "    ")] and loads a
    configuration with [json.Unmarshal(b, &managerConf)].  Neither the
    struct nor the library is part of this program's sources.  The module
    below describes what the two calls do on struct types built from
    strings, integers, booleans, slices and nested structs: the JSON value
    a Go value is marshalled to, its indented text, the parsing of JSON
    text and the decoding of a JSON value into a Go value (object keys are
    matched to field names exactly or else ignoring case, unknown keys are
    skipped, [null] leaves a non-slice value untouched).  Numbers are
    integers and [\u] escapes are limited to one byte in this model. *)

Module JSON.

(** Modelled from the spec: [collector.ManagerConfig] is declared outside
    these sources; the spec describes it as a structure with at least a
    [Host] field.  Its field list is a parameter: a value of [fields],
    each field with its JSON name and its type. *)
Inductive ty :=
| TString
| TInt
| TBool
| TSlice (elem : ty)
| TStruct (fs : fields)
with fields :=
| FNil
| FCons (name : string) (t : ty) (fs : fields).

(** Go values; [VSliceNil] is the nil slice. *)
Inductive val :=
| VString (s : string)
| VInt (z : Z)
| VBool (b : bool)
| VSliceNil
| VSlice (l : vals)
| VStruct (fs : vfields)
with vals :=
| VNil
| VCons (v : val) (l : vals)
with vfields :=
| VFNil
| VFCons (name : string) (v : val) (fs : vfields).

(** The zero value of a type. *)
Fixpoint zero (t : ty) : val :=
  match t with
  | TString => VString ""
  | TInt => VInt 0
  | TBool => VBool false
  | TSlice _ => VSliceNil
  | TStruct fs => VStruct (zero_fields fs)
  end
with zero_fields (fs : fields) : vfields :=
  match fs with
  | FNil => VFNil
  | FCons n t fs => VFCons n (zero t) (zero_fields fs)
  end.

Inductive json :=
| JNull
| JBool (b : bool)
| JNum (z : Z)
| JStr (s : string)
| JArr (l : jlist)
| JObj (ms : jmembers)
with jlist :=
| JLNil
| JLCons (j : json) (l : jlist)
with jmembers :=
| JMNil
| JMCons (k : string) (j : json) (ms : jmembers).

(** The JSON value [json.Marshal] produces for a Go value. *)
Fixpoint encode (v : val) : json :=
  match v with
  | VString s => JStr s
  | VInt z => JNum z
  | VBool b => JBool b
  | VSliceNil => JNull
  | VSlice l => JArr (encode_list l)
  | VStruct fs => JObj (encode_fields fs)
  end
with encode_list (l : vals) : jlist :=
  match l with
  | VNil => JLNil
  | VCons v l => JLCons (encode v) (encode_list l)
  end
with encode_fields (fs : vfields) : jmembers :=
  match fs with
  | VFNil => JMNil
  | VFCons n v fs => JMCons n (encode v) (encode_fields fs)
  end.

(** *** Text *)

Definition text := list ascii.

Definition txt (s : string) : text := list_ascii_of_string s.

Definition quote : ascii := "034"%char.
Definition backslash : ascii := "092"%char.
Definition newline : ascii := "010"%char.
Definition tab : ascii := "009"%char.
Definition cr : ascii := "013"%char.

Definition is_ws (c : ascii) : bool :=
  Ascii.eqb c " " || Ascii.eqb c tab || Ascii.eqb c newline || Ascii.eqb c cr.

Definition is_digit (c : ascii) : bool :=
  let n := N_of_ascii c in ((48 <=? n) && (n <=? 57))%N.

Definition hex_digit (n : N) : ascii :=
  ascii_of_N (if (n <? 10)%N then 48 + n else 87 + n)%N.

(** Characters [json.Marshal] writes as they are inside a string; the
    others are escaped. *)
Definition plain_char (c : ascii) : bool :=
  let n := N_of_ascii c in
  (32 <=? n)%N && negb (Ascii.eqb c quote) && negb (Ascii.eqb c backslash)
  && negb (Ascii.eqb c "<") && negb (Ascii.eqb c ">")
  && negb (Ascii.eqb c "&").

Definition escape_char (c : ascii) : text :=
  if plain_char c then [c]
  else if Ascii.eqb c quote then [backslash; quote]
  else if Ascii.eqb c backslash then [backslash; backslash]
  else if Ascii.eqb c newline then [backslash; "n"%char]
  else if Ascii.eqb c cr then [backslash; "r"%char]
  else if Ascii.eqb c tab then [backslash; "t"%char]
  else
    let n := N_of_ascii c in
    [backslash; "u"%char; "0"%char; "0"%char;
     hex_digit (n / 16); hex_digit (n mod 16)].

Fixpoint escape (s : string) : text :=
  match s with
  | EmptyString => []
  | String c s => escape_char c ++ escape s
  end.

Definition quote_string (s : string) : text := quote :: escape s ++ [quote].

Definition decimal (z : Z) : text :=
  txt (NilZero.string_of_int (Z.to_int z)).

Section Render.
Variables prefix indent : text.

(** Line break followed by the prefix and [d] indentation units. *)
Definition break (d : nat) : text :=
  newline :: prefix ++ concat (replicate d indent).

Fixpoint render (d : nat) (j : json) : text :=
  match j with
  | JNull => txt "null"
  | JBool true => txt "true"
  | JBool false => txt "false"
  | JNum z => decimal z
  | JStr s => quote_string s
  | JArr JLNil => txt "[]"
  | JArr l => txt "[" ++ break (S d) ++ render_list (S d) l ++ break d ++ txt "]"
  | JObj JMNil => txt "{}"
  | JObj ms =>
    txt "{" ++ break (S d) ++ render_members (S d) ms ++ break d ++ txt "}"
  end
with render_list (d : nat) (l : jlist) : text :=
  match l with
  | JLNil => []
  | JLCons j JLNil => render d j
  | JLCons j l => render d j ++ txt "," ++ break d ++ render_list d l
  end
with render_members (d : nat) (ms : jmembers) : text :=
  match ms with
  | JMNil => []
  | JMCons k j JMNil => quote_string k ++ txt ": " ++ render d j
  | JMCons k j ms =>
    quote_string k ++ txt ": " ++ render d j ++ txt "," ++ break d
    ++ render_members d ms
  end.

End Render.

(** Modelled from the spec: the skeleton dump serializes a configuration
    into structured text with stable field order and indentation.  This is
    [json.MarshalIndent(v, prefix, indent)]; it cannot fail on these
    types. *)
Definition MarshalIndent (v : val) (prefix indent : string) : string + string :=
  inl (string_of_list_ascii (render (txt prefix) (txt indent) 0 (encode v))).

(** *** Parsing *)

Fixpoint skip_ws (s : text) : text :=
  match s with
  | c :: r => if is_ws c then skip_ws r else s
  | [] => []
  end.

Fixpoint strip_prefix (p s : text) : option text :=
  match p with
  | [] => Some s
  | c :: p =>
    match s with
    | c' :: s => if Ascii.eqb c c' then strip_prefix p s else None
    | [] => None
    end
  end.

Definition hex_value (c : ascii) : option N :=
  let n := N_of_ascii c in
  if ((48 <=? n) && (n <=? 57))%N then Some (n - 48)%N
  else if ((97 <=? n) && (n <=? 102))%N then Some (n - 87)%N
  else if ((65 <=? n) && (n <=? 70))%N then Some (n - 55)%N
  else None.

Definition unescape (e : ascii) : option ascii :=
  if Ascii.eqb e quote then Some quote
  else if Ascii.eqb e backslash then Some backslash
  else if Ascii.eqb e "/" then Some "/"%char
  else if Ascii.eqb e "b" then Some "008"%char
  else if Ascii.eqb e "f" then Some "012"%char
  else if Ascii.eqb e "n" then Some newline
  else if Ascii.eqb e "r" then Some cr
  else if Ascii.eqb e "t" then Some tab
  else None.

(** The rest of a string literal, after its opening quote. *)
Fixpoint parse_string (s : text) : option (string * text) :=
  match s with
  | [] => None
  | c :: r =>
    if Ascii.eqb c quote then Some (EmptyString, r)
    else if Ascii.eqb c backslash then
      match r with
      | [] => None
      | e :: r' =>
        match unescape e with
        | Some c' =>
          match parse_string r' with
          | Some (str, rest) => Some (String c' str, rest)
          | None => None
          end
        | None =>
          if Ascii.eqb e "u" then
            match r' with
            | h1 :: h2 :: h3 :: h4 :: r'' =>
              match hex_value h1, hex_value h2, hex_value h3, hex_value h4 with
              | Some 0%N, Some 0%N, Some a, Some b =>
                match parse_string r'' with
                | Some (str, rest) =>
                  Some (String (ascii_of_N (16 * a + b)) str, rest)
                | None => None
                end
              | _, _, _, _ => None
              end
            | _ => None
            end
          else None
        end
      end
    else if (N_of_ascii c <? 32)%N then None
    else
      match parse_string r with
      | Some (str, rest) => Some (String c str, rest)
      | None => None
      end
  end.

(** The digits at the head of a text, as a number, and what follows. *)
Fixpoint parse_digits (s : text) (acc : N) : N * text :=
  match s with
  | c :: r =>
    if is_digit c then parse_digits r (10 * acc + (N_of_ascii c - 48))%N
    else (acc, s)
  | [] => (acc, [])
  end.

Definition starts_fraction (s : text) : bool :=
  match s with
  | c :: _ => Ascii.eqb c "." || Ascii.eqb c "e" || Ascii.eqb c "E"
  | [] => false
  end.

(** An integer literal: no leading zero, no fraction, no exponent. *)
Definition parse_nat (s : text) : option (N * text) :=
  match s with
  | c :: r =>
    if Ascii.eqb c "0" then
      match r with
      | c' :: _ => if is_digit c' || starts_fraction r then None
                   else Some (0%N, r)
      | [] => Some (0%N, r)
      end
    else if is_digit c then
      let '(n, rest) := parse_digits s 0 in
      if starts_fraction rest then None else Some (n, rest)
    else None
  | [] => None
  end.

Definition parse_number (s : text) : option (Z * text) :=
  match s with
  | c :: r =>
    if Ascii.eqb c "-" then
      match parse_nat r with
      | Some (n, rest) => Some (- Z.of_N n, rest)
      | None => None
      end
    else
      match parse_nat s with
      | Some (n, rest) => Some (Z.of_N n, rest)
      | None => None
      end
  | [] => None
  end.

Fixpoint parse_value (fuel : nat) (s : text) : option (json * text) :=
  match fuel with
  | O => None
  | S fuel =>
    match skip_ws s with
    | [] => None
    | c :: r =>
      if Ascii.eqb c "n" then
        match strip_prefix (txt "ull") r with
        | Some rest => Some (JNull, rest)
        | None => None
        end
      else if Ascii.eqb c "t" then
        match strip_prefix (txt "rue") r with
        | Some rest => Some (JBool true, rest)
        | None => None
        end
      else if Ascii.eqb c "f" then
        match strip_prefix (txt "alse") r with
        | Some rest => Some (JBool false, rest)
        | None => None
        end
      else if Ascii.eqb c quote then
        match parse_string r with
        | Some (str, rest) => Some (JStr str, rest)
        | None => None
        end
      else if Ascii.eqb c "[" then
        match skip_ws r with
        | c' :: r' =>
          if Ascii.eqb c' "]" then Some (JArr JLNil, r')
          else
            match parse_elems fuel r with
            | Some (l, rest) => Some (JArr l, rest)
            | None => None
            end
        | [] => None
        end
      else if Ascii.eqb c "{" then
        match skip_ws r with
        | c' :: r' =>
          if Ascii.eqb c' "}" then Some (JObj JMNil, r')
          else
            match parse_members fuel r with
            | Some (ms, rest) => Some (JObj ms, rest)
            | None => None
            end
        | [] => None
        end
      else
        match parse_number (c :: r) with
        | Some (z, rest) => Some (JNum z, rest)
        | None => None
        end
    end
  end
with parse_elems (fuel : nat) (s : text) : option (jlist * text) :=
  match fuel with
  | O => None
  | S fuel =>
    match parse_value fuel s with
    | None => None
    | Some (j, r) =>
      match skip_ws r with
      | c :: r' =>
        if Ascii.eqb c "," then
          match parse_elems fuel r' with
          | Some (l, rest) => Some (JLCons j l, rest)
          | None => None
          end
        else if Ascii.eqb c "]" then Some (JLCons j JLNil, r')
        else None
      | [] => None
      end
    end
  end
with parse_members (fuel : nat) (s : text) : option (jmembers * text) :=
  match fuel with
  | O => None
  | S fuel =>
    match skip_ws s with
    | c :: r =>
      if Ascii.eqb c quote then
        match parse_string r with
        | None => None
        | Some (k, r1) =>
          match skip_ws r1 with
          | c1 :: r2 =>
            if Ascii.eqb c1 ":" then
              match parse_value fuel r2 with
              | None => None
              | Some (j, r3) =>
                match skip_ws r3 with
                | c3 :: r4 =>
                  if Ascii.eqb c3 "," then
                    match parse_members fuel r4 with
                    | Some (ms, rest) => Some (JMCons k j ms, rest)
                    | None => None
                    end
                  else if Ascii.eqb c3 "}" then Some (JMCons k j JMNil, r4)
                  else None
                | [] => None
                end
              end
            else None
          | [] => None
          end
        end
      else None
    | [] => None
    end
  end.

(** *** Decoding into a Go value *)

Definition lower (c : ascii) : ascii :=
  let n := N_of_ascii c in
  if ((65 <=? n) && (n <=? 90))%N then ascii_of_N (n + 32) else c.

Fixpoint equal_fold (a b : string) : bool :=
  match a, b with
  | EmptyString, EmptyString => true
  | String x a, String y b => Ascii.eqb (lower x) (lower y) && equal_fold a b
  | _, _ => false
  end.

Fixpoint find_by (same : string -> string -> bool) (k : string) (fs : fields)
    : option (string * ty) :=
  match fs with
  | FNil => None
  | FCons n t fs => if same k n then Some (n, t) else find_by same k fs
  end.

(** The field an object key is decoded into: the one with that name, or
    else the first whose name matches ignoring case. *)
Definition find_field (k : string) (fs : fields) : option (string * ty) :=
  match find_by String.eqb k fs with
  | Some f => Some f
  | None => find_by equal_fold k fs
  end.

Fixpoint get_field (n : string) (vs : vfields) (default : val) : val :=
  match vs with
  | VFNil => default
  | VFCons m v vs => if String.eqb n m then v else get_field n vs default
  end.

Fixpoint set_field (n : string) (v : val) (vs : vfields) : vfields :=
  match vs with
  | VFNil => VFNil
  | VFCons m v' vs =>
    if String.eqb n m then VFCons m v vs else VFCons m v' (set_field n v vs)
  end.

Definition int_min : Z := - 2 ^ 63.
Definition int_max : Z := 2 ^ 63 - 1.

(** [decode t j cur]: the value of type [t] that decoding [j] into a
    variable holding [cur] leaves there, or an error. *)
Fixpoint decode (t : ty) (j : json) (cur : val) : val + string :=
  match j with
  | JNull =>
    match t with
    | TSlice _ => inl VSliceNil
    | _ => inl cur
    end
  | JBool b =>
    match t with
    | TBool => inl (VBool b)
    | _ => inr "json: cannot unmarshal bool"
    end
  | JNum z =>
    match t with
    | TInt =>
      if (int_min <=? z) && (z <=? int_max) then inl (VInt z)
      else inr "json: cannot unmarshal number"
    | _ => inr "json: cannot unmarshal number"
    end
  | JStr s =>
    match t with
    | TString => inl (VString s)
    | _ => inr "json: cannot unmarshal string"
    end
  | JArr l =>
    match t with
    | TSlice e =>
      match decode_list e l with
      | inl vs => inl (VSlice vs)
      | inr err => inr err
      end
    | _ => inr "json: cannot unmarshal array"
    end
  | JObj ms =>
    match t, cur with
    | TStruct fs, VStruct vs =>
      match decode_members fs ms vs with
      | inl vs' => inl (VStruct vs')
      | inr err => inr err
      end
    | _, _ => inr "json: cannot unmarshal object"
    end
  end
with decode_list (e : ty) (l : jlist) : vals + string :=
  match l with
  | JLNil => inl VNil
  | JLCons j l =>
    match decode e j (zero e) with
    | inl v =>
      match decode_list e l with
      | inl vs => inl (VCons v vs)
      | inr err => inr err
      end
    | inr err => inr err
    end
  end
with decode_members (fs : fields) (ms : jmembers) (vs : vfields)
    : vfields + string :=
  match ms with
  | JMNil => inl vs
  | JMCons k j ms =>
    match find_field k fs with
    | None => decode_members fs ms vs
    | Some (n, t) =>
      match decode t j (get_field n vs (zero t)) with
      | inl v => decode_members fs ms (set_field n v vs)
      | inr err => inr err
      end
    end
  end.

(** Modelled from the spec: the loader parses the whole file content
    into a configuration and tolerates unknown fields.  This is
    [json.Unmarshal(b, &v)] for [v] of type [t] holding [cur]. *)
Definition Unmarshal (t : ty) (b : list Byte.byte) (cur : val) : val + string :=
  let s := List.map ascii_of_byte b in
  match parse_value (S (length s)) s with
  | None => inr "invalid character"
  | Some (j, rest) =>
    match skip_ws rest with
    | [] => decode t j cur
    | _ :: _ => inr "invalid character after top-level value"
    end
  end.

(** The type of the field called [n], if any. *)
Fixpoint lookup_ty (n : string) (fs : fields) : option ty :=
  match fs with
  | FNil => None
  | FCons m t fs => if String.eqb n m then Some t else lookup_ty n fs
  end.

(** What may follow a number: not a digit, a fraction or an exponent. *)
Definition delimited (rest : text) : Prop :=
  match rest with
  | [] => True
  | c :: _ => is_digit c || starts_fraction rest = false
  end.

(** Field names that [json.Marshal] writes without escapes, all
    different within one struct. *)
Definition plain (s : string) : bool :=
  forallb plain_char (list_ascii_of_string s).

Fixpoint has_name (n : string) (fs : fields) : bool :=
  match fs with
  | FNil => false
  | FCons m _ fs => String.eqb n m || has_name n fs
  end.

Fixpoint wf (t : ty) : bool :=
  match t with
  | TSlice e => wf e
  | TStruct fs => wf_fields fs
  | _ => true
  end
with wf_fields (fs : fields) : bool :=
  match fs with
  | FNil => true
  | FCons n t fs => plain n && negb (has_name n fs) && wf t && wf_fields fs
  end.

(** Mutual induction over types and field lists. *)
Scheme ty_mut := Induction for ty Sort Prop
  with fields_mut := Induction for fields Sort Prop.

(** The skeleton of a type parses back: its indented text, at any depth
    and followed by any delimited text, parses to the JSON value it was
    rendered from.  For a field list, the same for the members between
    the braces. *)
Definition parses_back (px ind : text) (t : ty) : Prop :=
  wf t = true ->
  forall d rest fuel,
    delimited rest ->
    (length (render px ind d (encode (zero t)) ++ rest) < fuel)%nat ->
    parse_value fuel (render px ind d (encode (zero t)) ++ rest) =
    Some (encode (zero t), rest).

Definition members_parse_back (px ind : text) (fs : fields) : Prop :=
  wf_fields fs = true ->
  fs <> FNil ->
  forall d0 d d' rest fuel,
    let ms := encode_fields (zero_fields fs) in
    (length (break px ind d0 ++ render_members px ind d ms ++
             break px ind d' ++ "}"%char :: rest) < fuel)%nat ->
    parse_members fuel
      (break px ind d0 ++ render_members px ind d ms ++
       break px ind d' ++ "}"%char :: rest) =
    Some (ms, rest).

(** The JSON value of a zero value decodes to that zero value.  For a
    field list, decoding its members into the zero value of a struct
    that has those fields leaves the struct zero-valued. *)
Definition decodes_back (t : ty) : Prop :=
  wf t = true -> decode t (encode (zero t)) (zero t) = inl (zero t).

Definition members_decode_back (fs : fields) : Prop :=
  wf_fields fs = true ->
  forall all,
    (forall n t, lookup_ty n fs = Some t -> lookup_ty n all = Some t) ->
    decode_members all (encode_fields (zero_fields fs)) (zero_fields all) =
    inl (zero_fields all).

End JSON.

(** ** A concrete environment

    Used to run the program on explicit inputs.  [parseIPv4] is a
    stand-in for [net.ParseIP] that accepts dotted-decimal IPv4 literals
    only and returns the 16-byte form Go uses. *)

Module Sample.

Definition digit (c : ascii) : option N :=
  let n := N_of_ascii c in
  if ((48 <=? n) && (n <=? 57))%N then Some (n - 48)%N else None.

Fixpoint octets (s : string) (cur : option N) (acc : list N)
    : option (list N) :=
  match s with
  | EmptyString =>
    match cur with Some n => Some (acc ++ [n]) | None => None end
  | String c s' =>
    if Ascii.eqb c "."%char then
      match cur with
      | Some n => octets s' None (acc ++ [n])
      | None => None
      end
    else
      match digit c with
      | Some d =>
        let n := (match cur with Some n => n * 10 + d | None => d end)%N in
        if (n <=? 255)%N then octets s' (Some n) acc else None
      | None => None
      end
  end.

Definition v4InV6Prefix : list Byte.byte :=
  replicate 10 Byte.x00 ++ [Byte.xff; Byte.xff].

Definition parseIPv4 (s : string) : option IP :=
  match octets s None [] with
  | Some [a; b; c; d] =>
    match Byte.of_N a, Byte.of_N b, Byte.of_N c, Byte.of_N d with
    | Some a, Some b, Some c, Some d => Some (v4InV6Prefix ++ [a; b; c; d])
    | _, _, _, _ => None
    end
  | _ => None
  end.

Definition key (bits : Z) : rsa_PrivateKey :=
  {| rsa_Public := {| rsa_N := 2 ^ (bits - 1) + 1; rsa_E := 65537 |};
     rsa_D := 3;
     rsa_Primes := [] |}.

(** Every call succeeds. *)
Definition env : Env :=
  {| net_ParseIP := parseIPv4;
     rsa_GenerateKey_res :=
       fun bits => if 2 <=? bits then inl (key bits)
                   else inr "too few primes of given length";
     time_Now_res := 1500000000 * Second;
     rand_Int_res := fun max => inl (max - 1);
     x509_CreateCertificate_res :=
       fun _ _ _ _ => inl (bytes_of_string "DER");
     x509_MarshalPKCS1PrivateKey_res := fun _ => bytes_of_string "PKCS1";
     x509_MarshalECPrivateKey_res := fun _ => inl (bytes_of_string "SEC1");
     os_OpenFile_err := fun _ => None;
     pem_Encode_err := fun _ => None;
     pem_EncodeToMemory :=
       fun b => bytes_of_string ("-----BEGIN " +:+ pem_Type b +:+ "-----")
                ++ pem_Bytes b;
     file_Close_err := fun _ => None |}.

(** Writing to [cert.pem] fails (disk full), everything else succeeds. *)
Definition env_cert_write_fails : Env :=
  {| net_ParseIP := parseIPv4;
     rsa_GenerateKey_res := rsa_GenerateKey_res env;
     time_Now_res := time_Now_res env;
     rand_Int_res := rand_Int_res env;
     x509_CreateCertificate_res := x509_CreateCertificate_res env;
     x509_MarshalPKCS1PrivateKey_res := x509_MarshalPKCS1PrivateKey_res env;
     x509_MarshalECPrivateKey_res := x509_MarshalECPrivateKey_res env;
     os_OpenFile_err := fun _ => None;
     pem_Encode_err :=
       fun name => if String.eqb name "cert.pem"
                   then Some "no space left on device" else None;
     pem_EncodeToMemory := pem_EncodeToMemory env;
     file_Close_err := fun _ => None |}.

(** Opening [key.pem] fails, everything else succeeds. *)
Definition env_key_open_fails : Env :=
  {| net_ParseIP := parseIPv4;
     rsa_GenerateKey_res := rsa_GenerateKey_res env;
     time_Now_res := time_Now_res env;
     rand_Int_res := rand_Int_res env;
     x509_CreateCertificate_res := x509_CreateCertificate_res env;
     x509_MarshalPKCS1PrivateKey_res := x509_MarshalPKCS1PrivateKey_res env;
     x509_MarshalECPrivateKey_res := x509_MarshalECPrivateKey_res env;
     os_OpenFile_err :=
       fun name => if String.eqb name "key.pem"
                   then Some "permission denied" else None;
     pem_Encode_err := fun _ => None;
     pem_EncodeToMemory := pem_EncodeToMemory env;
     file_Close_err := fun _ => None |}.

Definition w0 : World := {| files := ∅; trace := [] |}.

(** A configuration type with a [Host] field, in the manner of
    [collector.ManagerConfig]. *)
Definition tls : JSON.ty :=
  JSON.TStruct (JSON.FCons "cert" JSON.TString
               (JSON.FCons "key" JSON.TString JSON.FNil)).

Definition cfg : JSON.ty :=
  JSON.TStruct (JSON.FCons "host" JSON.TString
               (JSON.FCons "port" JSON.TInt
               (JSON.FCons "logfile" JSON.TString
               (JSON.FCons "key" JSON.TString
               (JSON.FCons "authorized" (JSON.TSlice JSON.TString)
               (JSON.FCons "tls" tls JSON.FNil)))))).

Definition host_of (c : JSON.val) : string :=
  match c with
  | JSON.VStruct vs =>
    match JSON.get_field "host" vs (JSON.VString "") with
    | JSON.VString h => h
    | _ => ""
    end
  | _ => ""
  end.

Definition menv (keygen certgen dumpConfig : bool) : MainEnv JSON.val unit :=
  {| flag_keygen := keygen;
     flag_certgen := certgen;
     flag_dumpConfig := dumpConfig;
     flag_Arg0 := "manager.json";
     collector_KeyGen_res := "0123456789abcdef";
     ManagerConfig_zero := JSON.zero cfg;
     Host := host_of;
     json_MarshalIndent_res := JSON.MarshalIndent;
     os_Open_err := fun _ => None;
     ioutil_ReadAll_err := fun _ => None;
     json_Unmarshal_res := JSON.Unmarshal cfg;
     collector_NewManager_res := fun _ => inl tt;
     manager_lifecycle := fun _ => ret tt |}.

(** The text [-dump-config] prints for [cfg]. *)
Definition skeleton : string :=
  string_of_list_ascii
    (JSON.render [] (JSON.txt "    ") 0 (JSON.encode (JSON.zero cfg))).

Definition skeleton_file : File :=
  {| perm := 420; data := bytes_of_string (skeleton +:+ "
") |}.

(** A world whose configuration file is the unedited skeleton: it names
    no host. *)
Definition w_skeleton : World :=
  {| files := {[ "manager.json" := skeleton_file ]}; trace := [] |}.

End Sample.

(** ** Observing a run *)

(** The events a computation adds to the trace when started in [w]. *)
Definition events_of {A} (m : M A) (w : World) : list Event :=
  drop (length (trace w)) (trace (snd (m w))).

(** The calls to [x509.CreateCertificate] among some events, with their
    arguments (template, parent, public key, signing key). *)
Record CreateCall := {
  cc_template : Certificate;
  cc_parent : Certificate;
  cc_pub : PubIface;
  cc_priv : PrivIface }.

Definition certificates (evs : list Event) : list CreateCall :=
  omap (fun e => match e with
                 | EvCreateCertificate t p pub priv =>
                   Some {| cc_template := t; cc_parent := p;
                           cc_pub := pub; cc_priv := priv |}
                 | _ => None
                 end) evs.

(** The files opened among some events, with the mode passed. *)
Definition opened (evs : list Event) : list (string * Z) :=
  omap (fun e => match e with
                 | EvOpenFile name _ mode => Some (name, mode)
                 | _ => None
                 end) evs.

(** The PEM blocks handed to [pem.Encode] among some events. *)
Definition encoded (evs : list Event) : list (string * pem_Block) :=
  omap (fun e => match e with
                 | EvPemEncode name b => Some (name, b)
                 | _ => None
                 end) evs.

(** The template [generateCert] has built when it reaches
    [x509.CreateCertificate], as a function of what the clock and the
    random source returned. *)
Definition template_of (env : Env) (hosts : list string)
    (now : Time) (serial : Z) : Certificate :=
  fold_left (addHost env) hosts
    {| SerialNumber := serial;
       Subject_Organization := [defaultOrg];
       NotBefore := now;
       NotAfter := time_Add now defaultCertValidity;
       KeyUsage := Z.lor KeyUsageKeyEncipherment KeyUsageDigitalSignature;
       ExtKeyUsages := [ExtKeyUsageServerAuth];
       BasicConstraintsValid := true;
       IPAddresses := [];
       DNSNames := [] |}.

(** ** Subject alternative names *)

Inductive SAN :=
| SanIP (ip : IP)
| SanDNS (name : string).

(** The entry a host string stands for: an IP entry when it parses as
    an IP address, a DNS entry otherwise. *)
Definition classify (env : Env) (h : string) : SAN :=
  match net_ParseIP env h with
  | Some ip => SanIP ip
  | None => SanDNS h
  end.

(** All SAN entries of a certificate. *)
Definition SANs (t : Certificate) : list SAN :=
  map SanIP (IPAddresses t) ++ map SanDNS (DNSNames t).


(** The nine [x509.KeyUsage] flags, and the ones set in a bit mask. *)
Definition all_key_usages : list Z :=
  [KeyUsageDigitalSignature; KeyUsageContentCommitment;
   KeyUsageKeyEncipherment; KeyUsageDataEncipherment; KeyUsageKeyAgreement;
   KeyUsageCertSign; KeyUsageCRLSign; KeyUsageEncipherOnly;
   KeyUsageDecipherOnly].

Definition key_usages_of (ku : Z) : list Z :=
  List.filter (fun f => negb (Z.land ku f =? 0)) all_key_usages.

(** Contract of [rand.Int]: a result lies in [[0, max)]. *)
Definition rand_Int_in_range (env : Env) : Prop :=
  forall max r, 0 < max -> rand_Int_res env max = inl r -> 0 <= r < max.

(** Contract of [rsa.GenerateKey]: the modulus has the requested size. *)
Definition rsa_GenerateKey_sized (env : Env) : Prop :=
  forall bits k,
    rsa_GenerateKey_res env bits = inl k ->
    BitLen (rsa_N (rsa_Public k)) = bits.

(** The EC keys marshalled and the lines written to standard error among
    some events. *)
Definition ec_marshals (evs : list Event) : list ecdsa_PrivateKey :=
  omap (fun e => match e with EvMarshalEC k => Some k | _ => None end) evs.

Definition stderr_lines (evs : list Event) : list string :=
  omap (fun e => match e with EvStderr s => Some s | _ => None end) evs.

Definition log_lines (evs : list Event) : list string :=
  omap (fun e => match e with EvLogInfo s => Some s | _ => None end) evs.

(** The mode [cert.pem] has after a successful open: kept when the file
    existed, [0600] when it is created. *)
Definition cert_perm (w : World) : Z :=
  match files w !! "cert.pem" with
  | Some f => perm f
  | None => mode_0600
  end.

(** What [cert.pem] holds after the encoding step. *)
Definition cert_data (env : Env) (der : list Byte.byte) : list Byte.byte :=
  match pem_Encode_err env "cert.pem" with
  | Some _ => []
  | None =>
    pem_EncodeToMemory env {| pem_Type := "CERTIFICATE"; pem_Bytes := der |}
  end.

(** ** Proof automation *)

(** Case analysis on an innermost scrutinee of the goal. *)
Ltac destruct_scrutinee :=
  match goal with
  | |- context [match ?o with _ => _ end] =>
    lazymatch o with
    | context [match _ with _ => _ end] => fail
    | _ => destruct o eqn:?
    end
  end.

(** Unfold one run of [generateCert] into its branches. *)
Ltac run_generateCert :=
  unfold events_of, generateCert, rsa_GenerateKey, time_Now, rand_Int,
    x509_CreateCertificate, os_OpenFile, pem_Encode, file_Close,
    pemBlockForKey, x509_MarshalPKCS1PrivateKey, log_Info,
    bind, emit, ret, Errorf; simpl;
  change (has_flag O_TRUNC [O_WRONLY; O_CREATE; O_TRUNC]) with true;
  change (has_flag O_CREATE [O_WRONLY; O_CREATE; O_TRUNC]) with true;
  repeat (destruct_scrutinee; simpl);
  rewrite <- ?app_assoc, ?drop_app_length; simpl.


(** ** What a run leaves on disk *)

(** The file [name] after it was opened with
    [O_WRONLY|O_CREATE|O_TRUNC] and mode 0600 and [bs] was written to it:
    the earlier content is gone; the mode is 0600 for a new file and the
    earlier mode for an existing one. *)
Definition write_file (name : string) (bs : list Byte.byte)
    (m : gmap string File) : gmap string File :=
  <[name := {| perm := match m !! name with
                       | Some f => perm f
                       | None => mode_0600
                       end;
               data := bs |}]> m.

(** What [key.pem] holds after the encoding step. *)
Definition key_data (env : Env) (k : rsa_PrivateKey) : list Byte.byte :=
  match pem_Encode_err env "key.pem" with
  | Some _ => []
  | None =>
    pem_EncodeToMemory env
      {| pem_Type := "RSA PRIVATE KEY";
         pem_Bytes := x509_MarshalPKCS1PrivateKey_res env k |}
  end.

(** How far a run of [generateCert] gets with the files, as decided by
    the answers of the environment. *)
Inductive Progress :=
| NothingOpened
| CertOnly (der : list Byte.byte)
| CertAndKey (der : list Byte.byte) (k : rsa_PrivateKey).

Definition progress (env : Env) (hosts : list string) : Progress :=
  match hosts with
  | [] => NothingOpened
  | _ :: _ =>
    match rsa_GenerateKey_res env 4096 with
    | inr _ => NothingOpened
    | inl k =>
      match rand_Int_res env (Z.shiftl 1 128) with
      | inr _ => NothingOpened
      | inl serial =>
        let t := template_of env hosts (time_Now_res env) serial in
        match x509_CreateCertificate_res env t t
                (PubRSA (rsa_Public k)) (PrivRSA k) with
        | inr _ => NothingOpened
        | inl der =>
          match os_OpenFile_err env "cert.pem" with
          | Some _ => NothingOpened
          | None =>
            match os_OpenFile_err env "key.pem" with
            | Some _ => CertOnly der
            | None => CertAndKey der k
            end
          end
        end
      end
    end
  end.

Definition files_after (env : Env) (hosts : list string)
    (m : gmap string File) : gmap string File :=
  match progress env hosts with
  | NothingOpened => m
  | CertOnly der => write_file "cert.pem" (cert_data env der) m
  | CertAndKey der k =>
    write_file "key.pem" (key_data env k)
      (write_file "cert.pem" (cert_data env der) m)
  end.

(** What [generateCert] returns, as decided by the answers of the
    environment: the error of the first step that fails, [None] when
    every checked step succeeds. *)
Definition outcome_of (env : Env) (hosts : list string) : error :=
  match hosts with
  | [] => Some "Missing required --host parameter"
  | _ :: _ =>
    match rsa_GenerateKey_res env 4096 with
    | inr e => Some ("failed to generate private key: " +:+ e)
    | inl k =>
      match rand_Int_res env (Z.shiftl 1 128) with
      | inr e => Some ("failed to generate serial number: " +:+ e)
      | inl serial =>
        let t := template_of env hosts (time_Now_res env) serial in
        match x509_CreateCertificate_res env t t
                (PubRSA (rsa_Public k)) (PrivRSA k) with
        | inr e => Some ("Failed to create certificate: " +:+ e)
        | inl der =>
          match os_OpenFile_err env "cert.pem" with
          | Some e => Some ("failed to open cert.pem for writing: " +:+ e)
          | None =>
            match os_OpenFile_err env "key.pem" with
            | Some e => Some ("failed to open key.pem for writing: " +:+ e)
            | None => None
            end
          end
        end
      end
    end
  end.

(** The environment [env] with other answers to the two calls whose
    error [generateCert] does not look at. *)
Definition with_write_errors (env : Env)
    (encode_err close_err : string -> option string) : Env :=
  {| net_ParseIP := net_ParseIP env;
     rsa_GenerateKey_res := rsa_GenerateKey_res env;
     time_Now_res := time_Now_res env;
     rand_Int_res := rand_Int_res env;
     x509_CreateCertificate_res := x509_CreateCertificate_res env;
     x509_MarshalPKCS1PrivateKey_res := x509_MarshalPKCS1PrivateKey_res env;
     x509_MarshalECPrivateKey_res := x509_MarshalECPrivateKey_res env;
     os_OpenFile_err := os_OpenFile_err env;
     pem_Encode_err := encode_err;
     pem_EncodeToMemory := pem_EncodeToMemory env;
     file_Close_err := close_err |}.

(** The calls of a run that goes all the way, in order. *)
Definition full_events (env : Env) (hosts : list string)
    (k : rsa_PrivateKey) (serial : Z) (der : list Byte.byte) : list Event :=
  let t := template_of env hosts (time_Now_res env) serial in
  [ EvGenerateKey 4096;
    EvNow;
    EvRandInt (Z.shiftl 1 128);
    EvCreateCertificate t t (PubRSA (rsa_Public k)) (PrivRSA k);
    EvOpenFile "cert.pem" [O_WRONLY; O_CREATE; O_TRUNC] mode_0600;
    EvPemEncode "cert.pem" {| pem_Type := "CERTIFICATE"; pem_Bytes := der |};
    EvClose "cert.pem";
    EvLogInfo "Written cert.pem";
    EvOpenFile "key.pem" [O_WRONLY; O_CREATE; O_TRUNC] mode_0600;
    EvMarshalPKCS1 k;
    EvPemEncode "key.pem"
      {| pem_Type := "RSA PRIVATE KEY";
         pem_Bytes := x509_MarshalPKCS1PrivateKey_res env k |};
    EvClose "key.pem";
    EvLogInfo "Written key.pem" ].


(** ** More concrete environments *)

Module Cases.

(** Opening [cert.pem] fails, everything else succeeds. *)
Definition env_cert_open_fails : Env :=
  {| net_ParseIP := net_ParseIP Sample.env;
     rsa_GenerateKey_res := rsa_GenerateKey_res Sample.env;
     time_Now_res := time_Now_res Sample.env;
     rand_Int_res := rand_Int_res Sample.env;
     x509_CreateCertificate_res := x509_CreateCertificate_res Sample.env;
     x509_MarshalPKCS1PrivateKey_res :=
       x509_MarshalPKCS1PrivateKey_res Sample.env;
     x509_MarshalECPrivateKey_res := x509_MarshalECPrivateKey_res Sample.env;
     os_OpenFile_err :=
       fun name => if String.eqb name "cert.pem"
                   then Some "permission denied" else None;
     pem_Encode_err := fun _ => None;
     pem_EncodeToMemory := pem_EncodeToMemory Sample.env;
     file_Close_err := fun _ => None |}.

(** A world in which both files exist already, readable by everyone. *)
Definition w_existing : World :=
  {| files := {[ "cert.pem" := {| perm := 420;
                                  data := bytes_of_string "old cert" |};
                 "key.pem" := {| perm := 420;
                                 data := bytes_of_string "old key" |} ]};
     trace := [] |}.

End Cases.

(** * Properties *)

Lemma generateCert_certificates env h hosts w :
  certificates (events_of (generateCert env (h :: hosts)) w) =
  match rsa_GenerateKey_res env 4096 with
  | inr _ => []
  | inl k =>
    match rand_Int_res env (Z.shiftl 1 128) with
    | inr _ => []
    | inl serial =>
      let t := template_of env (h :: hosts) (time_Now_res env) serial in
      [{| cc_template := t; cc_parent := t;
          cc_pub := PubRSA (rsa_Public k); cc_priv := PrivRSA k |}]
    end
  end.
Proof.
  unfold template_of.
  run_generateCert.
  all: reflexivity.
Qed.

Section AddHost.
Variable env : Env.





(** The loop touches the two SAN lists only. *)
Lemma fold_addHost_frame hosts : forall t,
  let t' := fold_left (addHost env) hosts t in
  SerialNumber t' = SerialNumber t /\
  Subject_Organization t' = Subject_Organization t /\
  NotBefore t' = NotBefore t /\
  NotAfter t' = NotAfter t /\
  KeyUsage t' = KeyUsage t /\
  ExtKeyUsages t' = ExtKeyUsages t /\
  BasicConstraintsValid t' = BasicConstraintsValid t.
Proof.
  induction hosts as [|h hosts IH]; intros t; simpl; [done|].
  destruct (IH (addHost env t h)) as (-> & -> & -> & -> & -> & -> & ->).
  unfold addHost. by destruct (net_ParseIP env h).
Qed.

End AddHost.

Lemma generateCert_nil_events env w : events_of (generateCert env []) w = [].
Proof. unfold events_of. simpl. apply drop_all. Qed.

(** A run reaches [x509.CreateCertificate] only with a key and a serial
    number, and passes the template it built as certificate and as
    parent. *)
Lemma generateCert_certificates_inv env hosts w c :
  c ∈ certificates (events_of (generateCert env hosts) w) ->
  exists k serial,
    rsa_GenerateKey_res env 4096 = inl k /\
    rand_Int_res env (Z.shiftl 1 128) = inl serial /\
    c = {| cc_template := template_of env hosts (time_Now_res env) serial;
           cc_parent := template_of env hosts (time_Now_res env) serial;
           cc_pub := PubRSA (rsa_Public k);
           cc_priv := PrivRSA k |}.
Proof.
  destruct hosts as [|h hosts].
  - rewrite generateCert_nil_events. by intros ?%elem_of_nil.
  - rewrite generateCert_certificates.
    destruct (rsa_GenerateKey_res env 4096) as [k|]; [|by intros ?%elem_of_nil].
    destruct (rand_Int_res env _) as [serial|]; [|by intros ?%elem_of_nil].
    simpl. intros ->%list_elem_of_singleton. eauto.
Qed.

Lemma generateCert_certificates_ok env hosts w k serial :
  hosts <> [] ->
  rsa_GenerateKey_res env 4096 = inl k ->
  rand_Int_res env (Z.shiftl 1 128) = inl serial ->
  certificates (events_of (generateCert env hosts) w) =
  [{| cc_template := template_of env hosts (time_Now_res env) serial;
      cc_parent := template_of env hosts (time_Now_res env) serial;
      cc_pub := PubRSA (rsa_Public k);
      cc_priv := PrivRSA k |}].
Proof.
  intros Hne Hk Hs. destruct hosts as [|h hosts]; [done|].
  rewrite generateCert_certificates, Hk, Hs. done.
Qed.

(** ** Empty host list *)

(** C2. Called with an empty host list, [generateCert] returns the error
    "Missing required --host parameter" and leaves the world exactly as it
    found it: no file is created or changed (in particular neither
    [cert.pem] nor [key.pem]), and no call to the outside is made (no key
    is generated). *)
Theorem generateCert_empty_hosts env w :
  generateCert env [] w =
    (Done (Some "Missing required --host parameter"), w) /\
  files (snd (generateCert env [] w)) = files w /\
  events_of (generateCert env []) w = [].
Proof.
  split; [reflexivity|]. split; [reflexivity|].
  apply generateCert_nil_events.
Qed.

(** ** Subject alternative names *)



(** ** Validity window *)

(** C3. Every certificate [generateCert] creates is valid from the
    generation time ([time.Now()]) until 365 days, that is 365 * 24
    hours, later; hence [NotBefore <= NotAfter] and the generation time
    lies within the window.  The validity is a positive duration that
    fits Go's 64-bit [time.Duration], and a certificate is created as soon
    as the key and the serial number are obtained for a non-empty host
    list. *)
Theorem generateCert_validity_window env hosts w :
  Forall (fun c =>
            let t := cc_template c in
            NotBefore t = time_Now_res env /\
            NotAfter t = NotBefore t + 365 * (24 * Hour) /\
            NotBefore t <= NotAfter t /\
            NotBefore t <= time_Now_res env <= NotAfter t)
         (certificates (events_of (generateCert env hosts) w)) /\
  0 < defaultCertValidity < 2 ^ 63 /\
  (hosts <> [] ->
   forall k serial,
     rsa_GenerateKey_res env 4096 = inl k ->
     rand_Int_res env (Z.shiftl 1 128) = inl serial ->
     exists c, certificates (events_of (generateCert env hosts) w) = [c]).
Proof.
  split; [|split; [done|]]; cycle 1.
  { intros Hne k serial Hk Hs. eexists.
    by apply generateCert_certificates_ok. }
  apply Forall_forall. intros c Hc.
  apply generateCert_certificates_inv in Hc as (k & serial & _ & _ & ->).
  simpl. unfold template_of.
  match goal with
  | |- context [fold_left (addHost env) hosts ?t0] =>
    destruct (fold_addHost_frame env hosts t0) as (_ & _ & -> & -> & _)
  end.
  simpl. unfold time_Add, defaultCertValidity, Hour, Minute, Second,
    Millisecond, Microsecond, Nanosecond.
  lia.
Qed.

(** ** Template fields and self-signature *)

(** C4. Every certificate [generateCert] creates has a serial number in
    [[0, 2^128)] (given that [rand.Int] honours its range), the
    organization "WHIDS Manager", exactly the key usages digital signature
    and key encipherment, exactly the extended key usage server
    authentication, [BasicConstraintsValid] set, and is self-signed: the
    same template is passed as certificate and as parent, with the public
    half of the generated RSA key and with that key as signing key. *)
Theorem generateCert_template_fields env hosts w :
  rand_Int_in_range env ->
  Forall (fun c =>
            let t := cc_template c in
            0 <= SerialNumber t < 2 ^ 128 /\
            Subject_Organization t = ["WHIDS Manager"] /\
            key_usages_of (KeyUsage t) =
              [KeyUsageDigitalSignature; KeyUsageKeyEncipherment] /\
            ExtKeyUsages t = [ExtKeyUsageServerAuth] /\
            BasicConstraintsValid t = true /\
            cc_parent c = cc_template c /\
            exists k,
              rsa_GenerateKey_res env 4096 = inl k /\
              cc_priv c = PrivRSA k /\
              cc_pub c = PubRSA (rsa_Public k))
         (certificates (events_of (generateCert env hosts) w)) /\
  (hosts <> [] ->
   forall k serial,
     rsa_GenerateKey_res env 4096 = inl k ->
     rand_Int_res env (Z.shiftl 1 128) = inl serial ->
     exists c, certificates (events_of (generateCert env hosts) w) = [c]).
Proof.
  intros Hrand. split; cycle 1.
  { intros Hne k serial Hk Hs. eexists.
    by apply generateCert_certificates_ok. }
  apply Forall_forall. intros c Hc.
  apply generateCert_certificates_inv in Hc as (k & serial & Hk & Hs & ->).
  simpl. unfold template_of.
  match goal with
  | |- context [fold_left (addHost env) hosts ?t0] =>
    destruct (fold_addHost_frame env hosts t0)
      as (-> & -> & _ & _ & -> & -> & ->)
  end.
  simpl. repeat split; eauto.
  - apply (Hrand (Z.shiftl 1 128)); [reflexivity | exact Hs].
  - apply (Hrand (Z.shiftl 1 128)); [reflexivity | exact Hs].
Qed.

Lemma generateCert_template_fields_witness :
  Forall (fun c =>
            0 <= SerialNumber (cc_template c) < 2 ^ 128 /\
            cc_parent c = cc_template c)
         (certificates
            (events_of (generateCert Sample.env ["manager.internal"])
                       Sample.w0)).
Proof.
  eapply Forall_impl.
  - apply (generateCert_template_fields Sample.env ["manager.internal"]
             Sample.w0).
    intros max r Hmax Hr. simpl in Hr. injection Hr as <-. lia.
  - simpl. intros c (H1 & _ & _ & _ & _ & H2 & _). auto.
Defined.

(** ** Persistence *)

Lemma cert_file_after_write (m : gmap string File) p bs :
  alter (append_data bs) "cert.pem"
        (<["cert.pem" := {| perm := p; data := [] |}]> m) =
  <["cert.pem" := {| perm := p; data := bs |}]> m.
Proof.
  apply map_eq. intros n.
  destruct (decide (n = "cert.pem")) as [->|Hn].
  - rewrite lookup_alter_eq, !lookup_insert_eq. done.
  - rewrite lookup_alter_ne by done. by rewrite !lookup_insert_ne.
Qed.

(** C6. [generateCert] opens and writes [cert.pem] first and [key.pem]
    second, each opened with mode 0600, which grants nothing to group and
    others.  When opening [key.pem] fails, the run ends with the error
    "failed to open key.pem for writing", and the file system is the one
    left by the certificate step: [cert.pem] holds what was written to it
    and no other file has changed. *)
Theorem generateCert_cert_then_key env hosts w :
  opened (events_of (generateCert env hosts) w)
    `prefix_of` [("cert.pem", mode_0600); ("key.pem", mode_0600)] /\
  (encoded (events_of (generateCert env hosts) w)).*1
    `prefix_of` ["cert.pem"; "key.pem"] /\
  Z.land mode_0600 63 = 0 /\
  forall k serial der e,
    hosts <> [] ->
    rsa_GenerateKey_res env 4096 = inl k ->
    rand_Int_res env (Z.shiftl 1 128) = inl serial ->
    (let t := template_of env hosts (time_Now_res env) serial in
     x509_CreateCertificate_res env t t (PubRSA (rsa_Public k)) (PrivRSA k)
       = inl der) ->
    os_OpenFile_err env "cert.pem" = None ->
    os_OpenFile_err env "key.pem" = Some e ->
    fst (generateCert env hosts w) =
      Done (Some ("failed to open key.pem for writing: " +:+ e)) /\
    files (snd (generateCert env hosts w)) =
      <["cert.pem" := {| perm := cert_perm w; data := cert_data env der |}]>
        (files w) /\
    opened (events_of (generateCert env hosts) w) =
      [("cert.pem", mode_0600); ("key.pem", mode_0600)].
Proof.
  split; [|split; [|split; [reflexivity|]]].
  - destruct hosts as [|h hosts].
    + rewrite generateCert_nil_events. apply prefix_nil.
    + run_generateCert;
        repeat first [ reflexivity | apply prefix_nil | apply prefix_cons ].
  - destruct hosts as [|h hosts].
    + rewrite generateCert_nil_events. apply prefix_nil.
    + run_generateCert;
        repeat first [ reflexivity | apply prefix_nil | apply prefix_cons ].
  - intros k serial der e Hne Hk Hs Hc Ho1 Ho2.
    destruct hosts as [|h hosts]; [done|].
    unfold template_of in Hc. simpl in Hc.
    unfold cert_perm, cert_data.
    run_generateCert; simplify_eq;
      try match goal with
          | H : x509_CreateCertificate_res _ _ _ _ _ = _ |- _ =>
            rewrite Hc in H
          end;
      simplify_eq.
    all: rewrite ?cert_file_after_write.
    all: by repeat split.
Qed.

Lemma generateCert_cert_then_key_witness :
  fst (generateCert Sample.env_key_open_fails ["manager.internal"] Sample.w0)
    = Done (Some "failed to open key.pem for writing: permission denied") /\
  files (snd (generateCert Sample.env_key_open_fails ["manager.internal"]
                Sample.w0)) !! "key.pem" = None.
Proof.
  destruct (generateCert_cert_then_key Sample.env_key_open_fails
              ["manager.internal"] Sample.w0) as (_ & _ & _ & H).
  destruct (H (Sample.key 4096) (Z.shiftl 1 128 - 1)
              (bytes_of_string "DER") "permission denied")
    as (H1 & H2 & _); try reflexivity; [discriminate|].
  split; [exact H1|]. rewrite H2. reflexivity.
Defined.

(** Once the key, the serial number and the certificate are obtained and
    both files open, [generateCert] returns [nil] and logs both files as
    written: no later step can make it fail. *)
Lemma generateCert_returns_nil env hosts w k serial der :
  hosts <> [] ->
  rsa_GenerateKey_res env 4096 = inl k ->
  rand_Int_res env (Z.shiftl 1 128) = inl serial ->
  (let t := template_of env hosts (time_Now_res env) serial in
   x509_CreateCertificate_res env t t (PubRSA (rsa_Public k)) (PrivRSA k)
     = inl der) ->
  os_OpenFile_err env "cert.pem" = None ->
  os_OpenFile_err env "key.pem" = None ->
  fst (generateCert env hosts w) = Done None /\
  log_lines (events_of (generateCert env hosts) w) =
    ["Written cert.pem"; "Written key.pem"].
Proof.
  intros Hne Hk Hs Hc Ho1 Ho2.
  destruct hosts as [|h hosts]; [done|].
  unfold template_of in Hc. simpl in Hc.
  run_generateCert; simplify_eq;
    try match goal with
        | H : x509_CreateCertificate_res _ _ _ _ _ = _ |- _ =>
          rewrite Hc in H
        end;
    simplify_eq.
  all: by split.
Qed.

(** C5 (what the code does, against the requirement that an encoding
    failure be detected and reported).  The error returned by
    [pem.Encode] is dropped.  When writing the certificate fails while
    every other step succeeds, [generateCert] still returns [nil] and logs
    "Written cert.pem" and "Written key.pem"; the failure is reported
    nowhere (the outcome is not an error, nothing goes to standard
    error). *)
Theorem generateCert_encode_failure_unreported env hosts w k serial der e :
  hosts <> [] ->
  rsa_GenerateKey_res env 4096 = inl k ->
  rand_Int_res env (Z.shiftl 1 128) = inl serial ->
  (let t := template_of env hosts (time_Now_res env) serial in
   x509_CreateCertificate_res env t t (PubRSA (rsa_Public k)) (PrivRSA k)
     = inl der) ->
  os_OpenFile_err env "cert.pem" = None ->
  os_OpenFile_err env "key.pem" = None ->
  pem_Encode_err env "cert.pem" = Some e ->
  fst (generateCert env hosts w) = Done None /\
  log_lines (events_of (generateCert env hosts) w) =
    ["Written cert.pem"; "Written key.pem"] /\
  stderr_lines (events_of (generateCert env hosts) w) = [] /\
  ("cert.pem",
   {| pem_Type := "CERTIFICATE"; pem_Bytes := der |})
    ∈ encoded (events_of (generateCert env hosts) w).
Proof.
  intros Hne Hk Hs Hc Ho1 Ho2 He.
  destruct (generateCert_returns_nil env hosts w k serial der)
    as [H1 H2]; try done.
  split; [done|]. split; [done|].
  destruct hosts as [|h hosts]; [done|].
  unfold template_of in Hc. simpl in Hc.
  run_generateCert; simplify_eq;
    try match goal with
        | H : x509_CreateCertificate_res _ _ _ _ _ = _ |- _ =>
          rewrite Hc in H
        end;
    simplify_eq.
  all: split; [done|]; apply list_elem_of_here.
Qed.

Lemma generateCert_encode_failure_unreported_witness :
  fst (generateCert Sample.env_cert_write_fails ["manager.internal"]
         Sample.w0) = Done None /\
  log_lines (events_of (generateCert Sample.env_cert_write_fails
                          ["manager.internal"]) Sample.w0) =
    ["Written cert.pem"; "Written key.pem"].
Proof.
  destruct (generateCert_encode_failure_unreported
              Sample.env_cert_write_fails ["manager.internal"] Sample.w0
              (Sample.key 4096) (Z.shiftl 1 128 - 1)
              (bytes_of_string "DER") "no space left on device")
    as (H1 & H2 & _); solve [discriminate | reflexivity | auto].
Defined.

(** [generateCert] always returns to its caller: it neither exits the
    process nor panics. *)
Lemma generateCert_returns env hosts w :
  exists err, fst (generateCert env hosts w) = Done err.
Proof.
  destruct hosts as [|h hosts]; [simpl; eauto|].
  run_generateCert; eauto.
Qed.

(** ** Key type *)

(** C10. Every private key [generateCert] hands on is the RSA key it
    generated, with a 4096-bit modulus (given that [rsa.GenerateKey]
    returns the size it is asked for).  On such a key [publicKey] returns
    the RSA public key and [pemBlockForKey] the block "RSA PRIVATE KEY"
    holding the PKCS#1 encoding, which is the only block written to
    [key.pem].  No run marshals an EC key, writes to standard error, exits
    the process or dereferences a nil block: the ECDSA and default
    branches of both functions are never taken. *)
Theorem generateCert_key_is_rsa_4096 env hosts w :
  rsa_GenerateKey_sized env ->
  Forall (fun c =>
            exists k,
              rsa_GenerateKey_res env 4096 = inl k /\
              cc_priv c = PrivRSA k /\
              BitLen (rsa_N (rsa_Public k)) = 4096 /\
              publicKey (cc_priv c) = PubRSA (rsa_Public k) /\
              cc_pub c = publicKey (cc_priv c))
         (certificates (events_of (generateCert env hosts) w)) /\
  (forall k w1,
     fst (pemBlockForKey env (PrivRSA k) w1) =
     Done (Some {| pem_Type := "RSA PRIVATE KEY";
                   pem_Bytes := x509_MarshalPKCS1PrivateKey_res env k |})) /\
  Forall (fun nb =>
            nb.1 = "key.pem" ->
            exists k,
              rsa_GenerateKey_res env 4096 = inl k /\
              BitLen (rsa_N (rsa_Public k)) = 4096 /\
              nb.2 = {| pem_Type := "RSA PRIVATE KEY";
                        pem_Bytes := x509_MarshalPKCS1PrivateKey_res env k |})
         (encoded (events_of (generateCert env hosts) w)) /\
  ec_marshals (events_of (generateCert env hosts) w) = [] /\
  stderr_lines (events_of (generateCert env hosts) w) = [] /\
  exists err, fst (generateCert env hosts w) = Done err.
Proof.
  intros Hsized. split; [|split; [|split]].
  - apply Forall_forall. intros c Hc.
    apply generateCert_certificates_inv in Hc as (k & serial & Hk & _ & ->).
    exists k. simpl. repeat split; auto.
  - reflexivity.
  - destruct hosts as [|h hosts].
    + rewrite generateCert_nil_events. constructor.
    + run_generateCert;
        repeat (constructor; simpl; try discriminate).
      all: intros _; eexists; repeat split; eauto.
  - destruct hosts as [|h hosts].
    + rewrite generateCert_nil_events. simpl. eauto.
    + split; [|split; [|apply generateCert_returns]];
        run_generateCert; reflexivity.
Qed.

Lemma sample_key_sized bits :
  2 <= bits -> BitLen (rsa_N (rsa_Public (Sample.key bits))) = bits.
Proof.
  intros Hb. simpl. unfold BitLen.
  assert (0 < 2 ^ (bits - 1)) by (apply Z.pow_pos_nonneg; lia).
  destruct (Z.eqb_spec (2 ^ (bits - 1) + 1) 0) as [E|_]; [lia|].
  rewrite Z.abs_eq by lia.
  rewrite (Z.log2_unique (2 ^ (bits - 1) + 1) (bits - 1)); [lia|lia|].
  replace (bits - 1 + 1) with (Z.succ (bits - 1)) by lia.
  rewrite Z.pow_succ_r by lia.
  assert (1 < 2 ^ (bits - 1)); [|lia].
  apply (Z.pow_gt_1 2 (bits - 1)); lia.
Qed.

Lemma sample_env_sized : rsa_GenerateKey_sized Sample.env.
Proof.
  intros bits k Hk. simpl in Hk.
  destruct (Z.leb_spec 2 bits) as [Hb|Hb]; [|discriminate].
  injection Hk as <-. by apply sample_key_sized.
Qed.

Lemma generateCert_key_is_rsa_4096_witness :
  encoded (events_of (generateCert Sample.env ["manager.internal"]) Sample.w0)
    <> [] /\
  ec_marshals (events_of (generateCert Sample.env ["manager.internal"])
                 Sample.w0) = [] /\
  exists err,
    fst (generateCert Sample.env ["manager.internal"] Sample.w0) = Done err.
Proof.
  split; [discriminate|].
  destruct (generateCert_key_is_rsa_4096 Sample.env ["manager.internal"]
              Sample.w0) as (_ & _ & _ & H1 & _ & H2).
  - exact sample_env_sized.
  - auto.
Defined.

(** ** The [-certgen] path of [main] *)

Lemma generateCert_trace_extends env hosts w :
  trace (snd (generateCert env hosts w)) =
  trace w ++ events_of (generateCert env hosts) w.
Proof.
  destruct hosts as [|h hosts].
  - rewrite generateCert_nil_events. simpl. by rewrite app_nil_r.
  - run_generateCert; by rewrite <- ?app_assoc.
Qed.

Lemma generateCert_not_missing_host env h w :
  fst (generateCert env [h] w) <>
  Done (Some "Missing required --host parameter").
Proof. run_generateCert; discriminate. Qed.

Section MainCertgen.
Context {ManagerConfig Manager : Type}.
Variable env : Env.
Variable menv : MainEnv ManagerConfig Manager.
Variable w : World.
Variable f : File.
Variable conf : ManagerConfig.

Hypothesis Hkeygen : flag_keygen menv = false.
Hypothesis Hdump : flag_dumpConfig menv = false.
Hypothesis Hcertgen : flag_certgen menv = true.
Hypothesis Hopen : os_Open_err menv (flag_Arg0 menv) = None.
Hypothesis Hread : ioutil_ReadAll_err menv (flag_Arg0 menv) = None.
Hypothesis Hfile : files w !! flag_Arg0 menv = Some f.
Hypothesis Hparse :
  json_Unmarshal_res menv (data f) (ManagerConfig_zero menv) = inl conf.

Lemma main_certgen_unfold :
  main env menv w =
  match generateCert env [Host menv conf] w with
  | (Done None, w') =>
    (Exited 0,
     {| files := files w';
        trace := trace w' ++
          [EvLogInfo "Certificate and key generated should be used for testing purposes only."] |})
  | (Done (Some err), w') =>
    (Fatal ("Failed to generate key/cert pair: " +:+ err), w')
  | (Exited c, w') => (Exited c, w')
  | (Fatal s, w') => (Fatal s, w')
  | (Panicked s, w') => (Panicked s, w')
  end.
Proof.
  unfold main, bind, os_Open, ioutil_ReadAll, ret, log_Infof, emit,
    log_LogErrorAndExit, os_Exit.
  rewrite Hkeygen, Hdump, Hcertgen, Hopen, Hfile, Hread, Hfile, Hparse.
  destruct (generateCert env [Host menv conf] w) as [[[e|]| | |] w'];
    reflexivity.
Qed.

Lemma main_certgen_certificates :
  certificates (events_of (main env menv) w) =
  certificates (events_of (generateCert env [Host menv conf]) w).
Proof.
  unfold events_of at 1. rewrite main_certgen_unfold.
  pose proof (generateCert_trace_extends env [Host menv conf] w) as Ht.
  destruct (generateCert env [Host menv conf] w) as [[[e|]| | |] w'];
    simpl in *; rewrite Ht, <- ?app_assoc, drop_app_length; try done.
  unfold certificates. rewrite omap_app. simpl. by rewrite app_nil_r.
Qed.

End MainCertgen.

(** C9. With [-certgen] (and neither [-key] nor [-dump-config]) and a
    configuration that loads, [main] calls [generateCert] on the
    one-element list holding the configured [Host] and ends according to
    its result.  That call never returns the "Missing required --host
    parameter" error, and [main] never fails with it.  When the configured
    host is the empty string, which does not parse as an IP address, every
    certificate created has the single DNS entry [""] and no IP entry, and
    if all later steps succeed [main] creates that certificate and exits
    with status 0. *)
Theorem main_certgen_single_host {ManagerConfig Manager : Type}
    env (menv : MainEnv ManagerConfig Manager) w f conf :
  flag_keygen menv = false ->
  flag_dumpConfig menv = false ->
  flag_certgen menv = true ->
  os_Open_err menv (flag_Arg0 menv) = None ->
  ioutil_ReadAll_err menv (flag_Arg0 menv) = None ->
  files w !! flag_Arg0 menv = Some f ->
  json_Unmarshal_res menv (data f) (ManagerConfig_zero menv) = inl conf ->
  main env menv w =
    match generateCert env [Host menv conf] w with
    | (Done None, w') =>
      (Exited 0,
       {| files := files w';
          trace := trace w' ++
            [EvLogInfo "Certificate and key generated should be used for testing purposes only."] |})
    | (Done (Some err), w') =>
      (Fatal ("Failed to generate key/cert pair: " +:+ err), w')
    | (Exited c, w') => (Exited c, w')
    | (Fatal s, w') => (Fatal s, w')
    | (Panicked s, w') => (Panicked s, w')
    end /\
  fst (generateCert env [Host menv conf] w) <>
    Done (Some "Missing required --host parameter") /\
  fst (main env menv w) <>
    Fatal "Failed to generate key/cert pair: Missing required --host parameter" /\
  (Host menv conf = "" ->
   net_ParseIP env "" = None ->
   Forall (fun c =>
             DNSNames (cc_template c) = [""] /\
             IPAddresses (cc_template c) = [] /\
             SANs (cc_template c) = [SanDNS ""])
          (certificates (events_of (main env menv) w)) /\
   forall k serial der,
     rsa_GenerateKey_res env 4096 = inl k ->
     rand_Int_res env (Z.shiftl 1 128) = inl serial ->
     (let t := template_of env [""] (time_Now_res env) serial in
      x509_CreateCertificate_res env t t (PubRSA (rsa_Public k)) (PrivRSA k)
        = inl der) ->
     os_OpenFile_err env "cert.pem" = None ->
     os_OpenFile_err env "key.pem" = None ->
     fst (main env menv w) = Exited 0 /\
     exists c, certificates (events_of (main env menv) w) = [c]).
Proof.
  intros Hkeygen Hdump Hcertgen Hopen Hread Hfile Hparse.
  pose proof (main_certgen_unfold env menv w f conf Hkeygen Hdump Hcertgen
                Hopen Hread Hfile Hparse) as Hmain.
  pose proof (main_certgen_certificates env menv w f conf Hkeygen Hdump
                Hcertgen Hopen Hread Hfile Hparse) as Hcerts.
  pose proof (generateCert_not_missing_host env (Host menv conf) w) as Hnot.
  split; [exact Hmain|]. split; [exact Hnot|]. split.
  - rewrite Hmain.
    destruct (generateCert_returns env [Host menv conf] w) as [err Herr].
    destruct (generateCert env [Host menv conf] w) as [out w'].
    simpl in Herr, Hnot. subst out. destruct err as [e|]; simpl; [|done].
    intros [= He]. change (e = "Missing required --host parameter") in He.
    apply Hnot. by rewrite He.
  - intros Hhost Hip. rewrite Hcerts, Hhost. split.
    + apply Forall_forall. intros c Hc.
      apply generateCert_certificates_inv in Hc as (k & serial & _ & _ & ->).
      unfold SANs, template_of. simpl. unfold addHost. rewrite Hip. done.
    + intros k serial der Hk Hs Hc Ho1 Ho2.
      destruct (generateCert_returns_nil env [""] w k serial der)
        as [Hnil _]; try done.
      split.
      * rewrite Hmain, Hhost.
        destruct (generateCert env [""] w) as [[[e|]| | |] w'];
          simpl in *; congruence.
      * eexists. by apply generateCert_certificates_ok.
Qed.

Lemma main_certgen_single_host_witness :
  fst (main Sample.env (Sample.menv false true false) Sample.w_skeleton)
    = Exited 0 /\
  exists c,
    certificates (events_of (main Sample.env (Sample.menv false true false))
                    Sample.w_skeleton) = [c] /\
    DNSNames (cc_template c) = [""] /\
    IPAddresses (cc_template c) = [].
Proof.
  destruct (main_certgen_single_host Sample.env
              (Sample.menv false true false) Sample.w_skeleton
              Sample.skeleton_file (JSON.zero Sample.cfg))
    as (_ & _ & _ & H); try reflexivity.
  destruct H as [Hall Hex]; try reflexivity.
  destruct (Hex (Sample.key 4096) (Z.shiftl 1 128 - 1)
              (bytes_of_string "DER"))
    as (Hexit & c & Hc); try reflexivity.
  split; [exact Hexit|]. exists c. split; [exact Hc|].
  rewrite Hc in Hall. apply Forall_inv in Hall. tauto.
Defined.

(** ** Configuration round trip *)

Module JSONFacts.
Import JSON.

(** *** White space and strings *)

Lemma skip_ws_app (p s : text) :
  forallb is_ws p = true -> skip_ws (p ++ s) = skip_ws s.
Proof.
  induction p as [|c p IH]; simpl; [done|].
  intros [Hc Hp]%andb_prop. rewrite Hc. auto.
Qed.

Lemma forallb_concat_replicate (d : nat) (u : text) :
  forallb is_ws u = true -> forallb is_ws (concat (replicate d u)) = true.
Proof.
  intros Hu. induction d as [|d IH]; simpl; [done|].
  rewrite forallb_app, Hu, IH. done.
Qed.

Lemma break_ws (prefix indent : text) (d : nat) :
  forallb is_ws prefix = true -> forallb is_ws indent = true ->
  forallb is_ws (break prefix indent d) = true.
Proof.
  intros Hp Hi. unfold break. simpl.
  rewrite forallb_app, Hp, forallb_concat_replicate; done.
Qed.

Lemma plain_char_facts c :
  plain_char c = true ->
  Ascii.eqb c quote = false /\ Ascii.eqb c backslash = false /\
  (N_of_ascii c <? 32)%N = false.
Proof.
  unfold plain_char. intros H.
  repeat (apply andb_prop in H as [H ?]).
  repeat split; try by apply negb_true_iff.
  apply N.ltb_ge. by apply N.leb_le.
Qed.

Lemma escape_plain s : plain s = true -> escape s = txt s.
Proof.
  unfold plain, txt. induction s as [|c s IH]; simpl; [done|].
  intros [Hc Hs]%andb_prop. unfold escape_char. rewrite Hc. simpl.
  by rewrite IH.
Qed.

Lemma parse_string_plain s rest :
  plain s = true -> parse_string (txt s ++ quote :: rest) = Some (s, rest).
Proof.
  unfold plain, txt. induction s as [|c s IH]; simpl; [done|].
  intros [Hc Hs]%andb_prop.
  destruct (plain_char_facts c Hc) as (-> & -> & ->).
  by rewrite IH.
Qed.

Lemma parse_quoted s rest :
  plain s = true ->
  exists r, quote_string s ++ rest = quote :: r /\
            parse_string r = Some (s, rest).
Proof.
  intros Hs. unfold quote_string. rewrite escape_plain by done.
  exists (txt s ++ quote :: rest). split.
  - simpl. by rewrite <- app_assoc.
  - by apply parse_string_plain.
Qed.

(** *** One step of the parser *)

Lemma parse_value_ws fuel c s :
  is_ws c = true -> parse_value fuel (c :: s) = parse_value fuel s.
Proof. destruct fuel; simpl; [done|]. by intros ->. Qed.

Lemma parse_value_object fuel s r c' r' ms rest :
  skip_ws s = "{"%char :: r ->
  skip_ws r = c' :: r' ->
  Ascii.eqb c' "}" = false ->
  parse_members fuel r = Some (ms, rest) ->
  parse_value (S fuel) s = Some (JObj ms, rest).
Proof. intros Hs Hr Hc Hm. simpl. rewrite Hs. simpl. by rewrite Hr, Hc, Hm. Qed.

Lemma parse_members_more fuel s r k r1 r2 j r3 r4 ms rest :
  skip_ws s = quote :: r ->
  parse_string r = Some (k, r1) ->
  skip_ws r1 = ":"%char :: r2 ->
  parse_value fuel r2 = Some (j, r3) ->
  skip_ws r3 = ","%char :: r4 ->
  parse_members fuel r4 = Some (ms, rest) ->
  parse_members (S fuel) s = Some (JMCons k j ms, rest).
Proof.
  intros Hs Hk Hc Hv Hn Hm. simpl. rewrite Hs. simpl.
  rewrite Hk, Hc. simpl. rewrite Hv, Hn. simpl. by rewrite Hm.
Qed.

Lemma parse_members_last fuel s r k r1 r2 j r3 rest :
  skip_ws s = quote :: r ->
  parse_string r = Some (k, r1) ->
  skip_ws r1 = ":"%char :: r2 ->
  parse_value fuel r2 = Some (j, r3) ->
  skip_ws r3 = "}"%char :: rest ->
  parse_members (S fuel) s = Some (JMCons k j JMNil, rest).
Proof.
  intros Hs Hk Hc Hv Hn. simpl. rewrite Hs. simpl.
  rewrite Hk, Hc. simpl. by rewrite Hv, Hn.
Qed.

Lemma parse_value_zero_int fuel rest :
  delimited rest ->
  parse_value (S fuel) (decimal 0 ++ rest) = Some (JNum 0, rest).
Proof.
  intros Hd. change (decimal 0) with ["0"%char]. simpl.
  unfold parse_number, parse_nat. simpl.
  destruct rest as [|c rest]; [done|].
  unfold delimited in Hd. by rewrite Hd.
Qed.

(** *** Parsing the skeleton *)

Section ParseZero.
Variables px ind : text.
Hypothesis prefix_ws : forallb is_ws px = true.
Hypothesis indent_ws : forallb is_ws ind = true.

Lemma skip_break d s : skip_ws (break px ind d ++ s) = skip_ws s.
Proof. apply skip_ws_app, break_ws; assumption. Qed.

Lemma render_members_cons d k j ms tail :
  render_members px ind d (JMCons k j ms) ++ tail =
  quote_string k ++ txt ": " ++ render px ind d j ++
    match ms with
    | JMNil => tail
    | JMCons _ _ _ =>
      txt "," ++ break px ind d ++ render_members px ind d ms ++ tail
    end.
Proof.
  destruct ms as [|k' j' ms].
  - change (render_members px ind d (JMCons k j JMNil))
      with (quote_string k ++ txt ": " ++ render px ind d j).
    by rewrite <- !app_assoc.
  - change (render_members px ind d (JMCons k j (JMCons k' j' ms)))
      with (quote_string k ++ txt ": " ++ render px ind d j ++ txt "," ++
            break px ind d ++ render_members px ind d (JMCons k' j' ms)).
    by rewrite <- !app_assoc.
Qed.

Lemma render_object_cons d k j ms tail :
  render px ind d (JObj (JMCons k j ms)) ++ tail =
  "{"%char :: break px ind (S d) ++
    render_members px ind (S d) (JMCons k j ms) ++
    break px ind d ++ "}"%char :: tail.
Proof.
  change (render px ind d (JObj (JMCons k j ms)))
    with (txt "{" ++ break px ind (S d) ++
          render_members px ind (S d) (JMCons k j ms) ++
          break px ind d ++ txt "}").
  rewrite <- !app_assoc. reflexivity.
Qed.

Lemma parse_zero_string : parses_back px ind TString.
Proof.
  intros _ d rest [|fuel] _ Hlen; [simpl in Hlen; lia|]. reflexivity.
Qed.

Lemma parse_zero_int : parses_back px ind TInt.
Proof.
  intros _ d rest [|fuel] Hd Hlen; [simpl in Hlen; lia|].
  by apply parse_value_zero_int.
Qed.

Lemma parse_zero_bool : parses_back px ind TBool.
Proof.
  intros _ d rest [|fuel] _ Hlen; [simpl in Hlen; lia|]. reflexivity.
Qed.

Lemma parse_zero_slice e : parses_back px ind (TSlice e).
Proof.
  intros _ d rest [|fuel] _ Hlen; [simpl in Hlen; lia|]. reflexivity.
Qed.

Lemma parse_zero_struct fs :
  members_parse_back px ind fs -> parses_back px ind (TStruct fs).
Proof.
  intros IH Hwf d rest fuel _ Hlen.
  destruct fuel as [|fuel]; [simpl in Hlen; lia|].
  destruct fs as [|n t fs]; [reflexivity|].
  simpl zero in *. simpl encode in *.
  rewrite render_object_cons in *.
  eapply parse_value_object.
  - reflexivity.
  - rewrite skip_break, render_members_cons. reflexivity.
  - reflexivity.
  - apply (IH Hwf); [done|]. rewrite length_cons in Hlen.
    apply Nat.succ_lt_mono. exact Hlen.
Qed.

Lemma delimited_break d s : delimited (break px ind d ++ s).
Proof. reflexivity. Qed.

Lemma parse_zero_members n t fs :
  parses_back px ind t -> members_parse_back px ind fs ->
  members_parse_back px ind (FCons n t fs).
Proof.
  intros Ht IHfs Hwf _ d0 d d' rest fuel ms Hlen. subst ms.
  simpl in Hwf. apply andb_prop in Hwf as [Hwf Hwfs].
  apply andb_prop in Hwf as [Hwf Hwt]. apply andb_prop in Hwf as [Hn _].
  destruct fuel as [|fuel]; [lia|].
  simpl zero_fields in *. simpl encode_fields in *.
  rewrite render_members_cons in *.
  destruct (parse_quoted n
    (txt ": " ++ render px ind d (encode (zero t)) ++
       match encode_fields (zero_fields fs) with
       | JMNil => break px ind d' ++ "}"%char :: rest
       | JMCons _ _ _ =>
         txt "," ++ break px ind d ++
         render_members px ind d (encode_fields (zero_fields fs)) ++
         break px ind d' ++ "}"%char :: rest
       end) Hn) as (r & Hr & Hparse).
  rewrite Hr in *. rewrite length_app, length_cons in Hlen.
  assert (Hkey : (length (txt ": " ++ render px ind d (encode (zero t)) ++
       match encode_fields (zero_fields fs) with
       | JMNil => break px ind d' ++ "}"%char :: rest
       | JMCons _ _ _ =>
         txt "," ++ break px ind d ++
         render_members px ind d (encode_fields (zero_fields fs)) ++
         break px ind d' ++ "}"%char :: rest
       end) <= length r)%nat).
  { apply (f_equal (@length ascii)) in Hr.
    unfold quote_string in Hr.
    rewrite length_app, !length_cons, length_app in Hr. lia. }
  rewrite length_app in Hkey.
  change (length (txt ": ")) with 2%nat in Hkey.
  destruct fs as [|n' t' fs]; cbn [zero_fields encode_fields] in *.
  - eapply parse_members_last.
    + rewrite skip_break. reflexivity.
    + exact Hparse.
    + reflexivity.
    + rewrite parse_value_ws by reflexivity.
      apply (Ht Hwt); [apply delimited_break|]. lia.
    + rewrite skip_break. reflexivity.
  - eapply parse_members_more.
    + rewrite skip_break. reflexivity.
    + exact Hparse.
    + reflexivity.
    + rewrite parse_value_ws by reflexivity.
      apply (Ht Hwt); [reflexivity|]. lia.
    + reflexivity.
    + apply (IHfs Hwfs); [done|].
      rewrite length_app, (length_app (txt ",")) in Hkey.
      cbn [zero_fields encode_fields]. lia.
Qed.

Lemma parse_zero_all :
  (forall t, parses_back px ind t) /\ (forall fs, members_parse_back px ind fs).
Proof.
  assert (Hnil : members_parse_back px ind FNil) by (intros _ H; done).
  split.
  - apply (ty_mut (parses_back px ind) (members_parse_back px ind));
      auto using parse_zero_string, parse_zero_int, parse_zero_bool,
        parse_zero_slice, parse_zero_struct, parse_zero_members.
  - apply (fields_mut (parses_back px ind) (members_parse_back px ind));
      auto using parse_zero_string, parse_zero_int, parse_zero_bool,
        parse_zero_slice, parse_zero_struct, parse_zero_members.
Qed.

End ParseZero.

(** *** Decoding the skeleton *)

Lemma find_field_lookup n t fs :
  lookup_ty n fs = Some t -> find_field n fs = Some (n, t).
Proof.
  intros H. unfold find_field.
  assert (find_by String.eqb n fs = Some (n, t)) as ->; [|done].
  induction fs as [|m u fs IH]; simpl in *; [done|].
  destruct (String.eqb_spec n m) as [->|_]; [congruence|auto].
Qed.

Lemma get_field_zero n t fs d :
  lookup_ty n fs = Some t -> get_field n (zero_fields fs) d = zero t.
Proof.
  induction fs as [|m u fs IH]; simpl; [done|].
  destruct (String.eqb n m); [congruence|auto].
Qed.

Lemma set_field_zero n t fs :
  lookup_ty n fs = Some t ->
  set_field n (zero t) (zero_fields fs) = zero_fields fs.
Proof.
  induction fs as [|m u fs IH]; simpl; [done|].
  destruct (String.eqb n m).
  - by intros [= ->].
  - intros H. by rewrite IH.
Qed.

Lemma lookup_has_name n t fs : lookup_ty n fs = Some t -> has_name n fs = true.
Proof.
  induction fs as [|m u fs IH]; simpl; [done|].
  destruct (String.eqb n m); auto.
Qed.

Lemma decode_zero_struct fs : members_decode_back fs -> decodes_back (TStruct fs).
Proof.
  intros IH Hwf. simpl. rewrite (IH Hwf fs); auto.
Qed.

Lemma decode_zero_members n t fs :
  decodes_back t -> members_decode_back fs ->
  members_decode_back (FCons n t fs).
Proof.
  intros Ht IHfs Hwf all Hsub.
  simpl in Hwf. apply andb_prop in Hwf as [Hwf Hwfs].
  apply andb_prop in Hwf as [Hwf Hwt]. apply andb_prop in Hwf as [_ Hfresh].
  apply negb_true_iff in Hfresh.
  assert (Hn : lookup_ty n all = Some t).
  { apply Hsub. simpl. by rewrite String.eqb_refl. }
  simpl. rewrite (find_field_lookup n t all Hn).
  rewrite (get_field_zero n t all _ Hn), (Ht Hwt).
  rewrite (set_field_zero n t all Hn).
  apply (IHfs Hwfs). intros m u Hm. apply Hsub. simpl.
  destruct (String.eqb_spec m n) as [->|_]; [|done].
  apply lookup_has_name in Hm. congruence.
Qed.

Lemma decode_zero_all :
  (forall t, decodes_back t) /\ (forall fs, members_decode_back fs).
Proof.
  assert (Hnil : members_decode_back FNil) by (intros _ all _; done).
  assert (Hs : decodes_back TString) by (intros _; done).
  assert (Hi : decodes_back TInt) by (intros _; done).
  assert (Hb : decodes_back TBool) by (intros _; done).
  assert (Hl : forall e, decodes_back e -> decodes_back (TSlice e))
    by (intros e _ _; done).
  split.
  - apply (ty_mut decodes_back members_decode_back);
      auto using decode_zero_struct, decode_zero_members.
  - apply (fields_mut decodes_back members_decode_back);
      auto using decode_zero_struct, decode_zero_members.
Qed.

(** *** From text to bytes and back *)

Lemma list_ascii_of_string_app a b :
  list_ascii_of_string (a +:+ b) =
  list_ascii_of_string a ++ list_ascii_of_string b.
Proof. induction a as [|c a IH]; simpl; [done|]. by rewrite IH. Qed.

Lemma ascii_of_bytes_of_string s :
  List.map ascii_of_byte (bytes_of_string s) = list_ascii_of_string s.
Proof.
  unfold bytes_of_string. rewrite List.map_map.
  induction (list_ascii_of_string s) as [|c l IH]; simpl; [done|].
  by rewrite ascii_of_byte_of_ascii, IH.
Qed.

(** The skeleton [main] prints, read back by the loader. *)
Lemma unmarshal_skeleton t s :
  wf t = true ->
  MarshalIndent (zero t) "" "    " = inl s ->
  Unmarshal t (bytes_of_string (s +:+ "
")) (zero t) = inl (zero t).
Proof.
  intros Hwf [= <-]. unfold Unmarshal.
  rewrite ascii_of_bytes_of_string, list_ascii_of_string_app,
    list_ascii_of_string_of_list_ascii.
  change (list_ascii_of_string "
") with [newline].
  destruct (parse_zero_all (txt "") (txt "    ") eq_refl eq_refl) as [Hp _].
  rewrite (Hp t Hwf 0%nat [newline]); [|done|apply Nat.lt_succ_diag_r].
  simpl. by apply decode_zero_all.
Qed.

End JSONFacts.

(** C7. The skeleton printed by [-dump-config], that is the indented
    JSON text of the zero-valued configuration followed by a line break,
    is read back by the loader as the zero-valued configuration: [main]
    run with [-dump-config] prints that text and exits with status 0,
    [json.Unmarshal] of that text into the zero-valued [managerConf]
    succeeds and leaves it zero-valued, and [main] run on a file holding
    that text hands the zero-valued configuration to
    [collector.NewManager]. *)
Theorem dump_config_round_trip {Manager : Type} env (cfg : JSON.ty)
    (menv : MainEnv JSON.val Manager) w s :
  JSON.wf cfg = true ->
  ManagerConfig_zero menv = JSON.zero cfg ->
  json_MarshalIndent_res menv = JSON.MarshalIndent ->
  json_Unmarshal_res menv = JSON.Unmarshal cfg ->
  JSON.MarshalIndent (JSON.zero cfg) "" "    " = inl s ->
  (flag_keygen menv = false -> flag_dumpConfig menv = true ->
   main env menv w =
     (Exited 0,
      {| files := files w; trace := trace w ++ [EvStdout (s +:+ "
")] |})) /\
  JSON.Unmarshal cfg (bytes_of_string (s +:+ "
")) (JSON.zero cfg) = inl (JSON.zero cfg) /\
  (forall f,
     flag_keygen menv = false -> flag_dumpConfig menv = false ->
     flag_certgen menv = false ->
     os_Open_err menv (flag_Arg0 menv) = None ->
     ioutil_ReadAll_err menv (flag_Arg0 menv) = None ->
     files w !! flag_Arg0 menv = Some f ->
     data f = bytes_of_string (s +:+ "
") ->
     main env menv w =
       match collector_NewManager_res menv (JSON.zero cfg) with
       | inr err => (Fatal ("Failed to create manager: " +:+ err), w)
       | inl manager => manager_lifecycle menv manager w
       end).
Proof.
  intros Hwf Hzero Hmarshal Hunmarshal Hs.
  pose proof (JSONFacts.unmarshal_skeleton cfg s Hwf Hs) as Hback.
  split; [|split; [exact Hback|]].
  - intros Hkeygen Hdump.
    unfold main, bind, ret, fmt_Println, emit, os_Exit.
    rewrite Hkeygen, Hdump, Hmarshal, Hzero, Hs. reflexivity.
  - intros f Hkeygen Hdump Hcertgen Hopen Hread Hfile Hdata.
    unfold main, bind, ret, os_Open, ioutil_ReadAll, log_LogErrorAndExit.
    rewrite Hkeygen, Hdump, Hcertgen, Hopen, Hfile, Hread, Hfile,
      Hunmarshal, Hzero, Hdata, Hback.
    destruct (collector_NewManager_res menv (JSON.zero cfg)); reflexivity.
Qed.

Lemma dump_config_round_trip_witness :
  JSON.Unmarshal Sample.cfg (bytes_of_string (Sample.skeleton +:+ "
")) (JSON.zero Sample.cfg) = inl (JSON.zero Sample.cfg) /\
  main Sample.env (Sample.menv false false false) Sample.w_skeleton =
    (Done tt, Sample.w_skeleton).
Proof.
  destruct (dump_config_round_trip Sample.env Sample.cfg
              (Sample.menv false false false) Sample.w_skeleton
              Sample.skeleton)
    as (_ & H1 & H2); try reflexivity.
  split; [exact H1|].
  apply (H2 Sample.skeleton_file); reflexivity.
Defined.

(** * Further properties of the persistence step *)

Lemma file_after_write name (m : gmap string File) p bs :
  alter (append_data bs) name (<[name := {| perm := p; data := [] |}]> m) =
  <[name := {| perm := p; data := bs |}]> m.
Proof.
  apply map_eq. intros n.
  destruct (decide (n = name)) as [->|Hn].
  - rewrite lookup_alter_eq, !lookup_insert_eq. done.
  - rewrite lookup_alter_ne by done. by rewrite !lookup_insert_ne.
Qed.

Lemma key_lookup_after_cert (m : gmap string File) x :
  <["cert.pem" := x]> m !! "key.pem" = m !! "key.pem".
Proof. by apply lookup_insert_ne. Qed.

Lemma key_lookup_after_cert_write (m : gmap string File) g :
  alter g "cert.pem" m !! "key.pem" = m !! "key.pem".
Proof. by apply lookup_alter_ne. Qed.

(** The file system after any run, in closed form. *)
Lemma generateCert_files env hosts w :
  files (snd (generateCert env hosts w)) = files_after env hosts (files w).
Proof.
  unfold files_after, progress, write_file, cert_data, key_data.
  destruct hosts as [|h hosts]; [reflexivity|].
  unfold template_of.
  unfold generateCert, rsa_GenerateKey, time_Now, rand_Int,
    x509_CreateCertificate, os_OpenFile, pem_Encode, file_Close,
    pemBlockForKey, x509_MarshalPKCS1PrivateKey, log_Info,
    bind, emit, ret, Errorf; simpl.
  repeat (first [ rewrite key_lookup_after_cert
                | rewrite key_lookup_after_cert_write
                | destruct_scrutinee ]; simpl).
  all: rewrite ?file_after_write; try reflexivity.
Qed.

(** The result of any run, in closed form. *)
Lemma generateCert_outcome env hosts w :
  fst (generateCert env hosts w) = Done (outcome_of env hosts).
Proof.
  unfold outcome_of.
  destruct hosts as [|h hosts]; [reflexivity|].
  unfold template_of.
  run_generateCert; reflexivity.
Qed.

Lemma write_file_other name bs (m : gmap string File) n :
  n <> name -> write_file name bs m !! n = m !! n.
Proof. intros Hn. unfold write_file. by rewrite lookup_insert_ne. Qed.

Lemma write_file_same name bs (m : gmap string File) :
  write_file name bs m !! name =
  Some {| perm := match m !! name with
                  | Some f => perm f
                  | None => mode_0600
                  end;
          data := bs |}.
Proof. unfold write_file. by rewrite lookup_insert_eq. Qed.

Lemma write_file_twice name bs bs' (m : gmap string File) :
  write_file name bs (write_file name bs' m) = write_file name bs m.
Proof.
  unfold write_file at 1. rewrite write_file_same. simpl.
  unfold write_file. by rewrite insert_insert_eq.
Qed.

Lemma write_file_comm n1 n2 bs1 bs2 (m : gmap string File) :
  n1 <> n2 ->
  write_file n1 bs1 (write_file n2 bs2 m) =
  write_file n2 bs2 (write_file n1 bs1 m).
Proof.
  intros Hne. unfold write_file at 1 3.
  rewrite !write_file_other by done.
  unfold write_file. by apply insert_insert_ne.
Qed.

Lemma generateCert_touches_only_cert_and_key_files env hosts w :
  forall n, n <> "cert.pem" -> n <> "key.pem" ->
            files (snd (generateCert env hosts w)) !! n = files w !! n.
Proof.
  intros n Hc Hk. rewrite generateCert_files. unfold files_after.
  destruct (progress env hosts); rewrite ?write_file_other; done.
Qed.

(** X1. A run of [generateCert] changes no file other than [cert.pem]
    and [key.pem]: every other file is after the run what it was before,
    whatever the run's result. *)
Theorem generateCert_touches_only_cert_and_key env hosts w n :
  n <> "cert.pem" -> n <> "key.pem" ->
  files (snd (generateCert env hosts w)) !! n = files w !! n.
Proof.
  intros Hc Hk. by apply generateCert_touches_only_cert_and_key_files.
Qed.

Lemma generateCert_touches_only_cert_and_key_witness :
  files (snd (generateCert Sample.env ["manager.internal"]
                Sample.w_skeleton)) !! "manager.json"
  = Some Sample.skeleton_file.
Proof.
  rewrite (generateCert_touches_only_cert_and_key Sample.env
             ["manager.internal"] Sample.w_skeleton "manager.json");
    [reflexivity | discriminate | discriminate].
Defined.

(** X2. Every failure of [generateCert] except the failure to open
    [key.pem] leaves the file system untouched: when the function returns
    an error that is not "failed to open key.pem for writing: ...", no
    file was created, emptied or written. *)
Theorem generateCert_failure_writes_nothing env hosts w err :
  fst (generateCert env hosts w) = Done (Some err) ->
  (forall e, err <> "failed to open key.pem for writing: " +:+ e) ->
  files (snd (generateCert env hosts w)) = files w.
Proof.
  rewrite generateCert_outcome, generateCert_files.
  unfold outcome_of, files_after, progress.
  destruct hosts as [|h hosts]; [done|].
  destruct (rsa_GenerateKey_res env 4096) as [k|]; [|done].
  destruct (rand_Int_res env _) as [serial|]; [|done].
  simpl.
  destruct (x509_CreateCertificate_res env _ _ _ _) as [der|]; [|done].
  destruct (os_OpenFile_err env "cert.pem"); [done|].
  destruct (os_OpenFile_err env "key.pem") as [e|]; [|done].
  intros [= <-] Hnot. by destruct (Hnot e).
Qed.

Lemma generateCert_failure_writes_nothing_witness :
  files (snd (generateCert Cases.env_cert_open_fails ["manager.internal"]
                Sample.w_skeleton)) = files Sample.w_skeleton.
Proof.
  apply (generateCert_failure_writes_nothing Cases.env_cert_open_fails
           ["manager.internal"] Sample.w_skeleton
           "failed to open cert.pem for writing: permission denied").
  - reflexivity.
  - intros e. discriminate.
Defined.

Lemma generateCert_success_iff env hosts w :
  fst (generateCert env hosts w) = Done None <->
  exists der k, progress env hosts = CertAndKey der k.
Proof.
  rewrite generateCert_outcome. unfold outcome_of, progress.
  destruct hosts as [|h hosts]; [split; [done|by intros (?&?&?)]|].
  destruct (rsa_GenerateKey_res env 4096) as [k|];
    [|split; [done|by intros (?&?&?)]].
  destruct (rand_Int_res env _) as [serial|];
    [|split; [done|by intros (?&?&?)]].
  simpl.
  destruct (x509_CreateCertificate_res env _ _ _ _) as [der|];
    [|split; [done|by intros (?&?&?)]].
  destruct (os_OpenFile_err env "cert.pem");
    [split; [done|by intros (?&?&?)]|].
  destruct (os_OpenFile_err env "key.pem");
    [split; [done|by intros (?&?&?)]|].
  split; eauto.
Qed.

(** X3. [generateCert] returns [nil] exactly when the key, the serial
    number and the certificate were obtained and both files opened.  Then
    both files exist; [cert.pem] holds what the certificate encoding wrote
    and [key.pem] what the key encoding wrote, any earlier content being
    discarded. *)
Theorem generateCert_success_files env hosts w :
  (fst (generateCert env hosts w) = Done None <->
   exists der k, progress env hosts = CertAndKey der k) /\
  forall der k,
    progress env hosts = CertAndKey der k ->
    exists pc pk,
      files (snd (generateCert env hosts w)) !! "cert.pem" =
        Some {| perm := pc; data := cert_data env der |} /\
      files (snd (generateCert env hosts w)) !! "key.pem" =
        Some {| perm := pk; data := key_data env k |}.
Proof.
  split; [apply generateCert_success_iff|].
  - intros der k Hp. rewrite generateCert_files. unfold files_after.
    rewrite Hp. eexists _, _. split.
    + rewrite write_file_other by done. apply write_file_same.
    + apply write_file_same.
Qed.

(** X4. Running [generateCert] again on what a first run left behind
    changes nothing on disk: the files are overwritten, never appended
    to, so a second run with the same answers of the environment leaves
    the file system of the first. *)
Theorem generateCert_rerun_overwrites env hosts w :
  files (snd (generateCert env hosts (snd (generateCert env hosts w)))) =
  files (snd (generateCert env hosts w)).
Proof.
  rewrite !generateCert_files. unfold files_after.
  destruct (progress env hosts) as [|der|der k].
  - reflexivity.
  - apply write_file_twice.
  - rewrite (write_file_comm "key.pem" "cert.pem") by done.
    rewrite write_file_twice.
    rewrite (write_file_comm "cert.pem" "key.pem") by done.
    by rewrite write_file_twice.
Qed.

(** X5. [generateCert] never changes the mode of a file that exists
    already: an existing [cert.pem] or [key.pem] keeps the mode it had
    (even a mode that lets others read it), and only a file the run
    creates gets mode 0600. *)
Theorem generateCert_keeps_existing_mode env hosts w name f' :
  name = "cert.pem" \/ name = "key.pem" ->
  files (snd (generateCert env hosts w)) !! name = Some f' ->
  perm f' = match files w !! name with
            | Some f => perm f
            | None => mode_0600
            end.
Proof.
  intros Hname. rewrite generateCert_files. unfold files_after.
  destruct (progress env hosts) as [|der|der k].
  - intros ->. done.
  - destruct Hname as [-> | ->].
    + rewrite write_file_same. by intros [= <-].
    + rewrite write_file_other by done. by intros ->.
  - destruct Hname as [-> | ->].
    + rewrite write_file_other by done. rewrite write_file_same.
      by intros [= <-].
    + rewrite write_file_same, write_file_other by done. by intros [= <-].
Qed.

Lemma generateCert_keeps_existing_mode_witness :
  exists f',
    files (snd (generateCert Sample.env ["manager.internal"]
                  Cases.w_existing)) !! "key.pem" = Some f' /\
    perm f' = 420.
Proof.
  eexists. split; [reflexivity|].
  apply (generateCert_keeps_existing_mode Sample.env ["manager.internal"]
           Cases.w_existing "key.pem"); [by right | reflexivity].
Defined.

(** * Calls made by [generateCert] *)

Lemma prefix_of_self_app {A} (l k : list A) : l `prefix_of` l ++ k.
Proof. by exists k. Qed.

(** X6. The calls [generateCert] makes are always an initial part of one
    fixed sequence: generate a 4096-bit key, read the clock, draw a serial
    below 2^128, create the certificate, then open, encode, close and log
    [cert.pem], then the same for [key.pem] with the PKCS#1 encoding in
    between.  No call is made twice or out of this order, and a run that
    returns [nil] has made all of them. *)
Theorem generateCert_call_sequence env hosts w :
  exists k serial der,
    events_of (generateCert env hosts) w
      `prefix_of` full_events env hosts k serial der /\
    (fst (generateCert env hosts w) = Done None ->
     events_of (generateCert env hosts) w =
       full_events env hosts k serial der).
Proof.
  destruct hosts as [|h hosts].
  - exists (Sample.key 0), 0, []. rewrite generateCert_nil_events.
    split; [apply prefix_nil | done].
  - unfold full_events, template_of.
    run_generateCert.
    all: match goal with
         | H : rsa_GenerateKey_res _ _ = inl ?k |- _ => exists k
         | _ => exists (Sample.key 0)
         end.
    all: match goal with
         | H : rand_Int_res _ _ = inl ?z |- _ => exists z
         | _ => exists 0
         end.
    all: match goal with
         | H : x509_CreateCertificate_res _ _ _ _ _ = inl ?l |- _ => exists l
         | _ => exists []
         end.
    all: split;
      [ repeat apply prefix_cons; first [ apply prefix_nil | reflexivity ]
      | first [ discriminate | reflexivity ] ].
Qed.

(** X7. Whether writing or closing a file fails has no influence on what
    [generateCert] returns nor on the calls it makes: with any other
    answers to [pem.Encode] and [Close], for either file, the result and
    the sequence of calls are the same.  A failed write of [cert.pem] or
    of [key.pem] is therefore never visible to the caller. *)
Theorem generateCert_blind_to_write_errors env encode_err close_err hosts w :
  fst (generateCert (with_write_errors env encode_err close_err) hosts w) =
    fst (generateCert env hosts w) /\
  events_of (generateCert (with_write_errors env encode_err close_err) hosts)
            w =
    events_of (generateCert env hosts) w.
Proof.
  split.
  - rewrite !generateCert_outcome. reflexivity.
  - destruct hosts as [|h hosts].
    + by rewrite !generateCert_nil_events.
    + unfold events_of, generateCert, rsa_GenerateKey, time_Now, rand_Int,
        x509_CreateCertificate, os_OpenFile, pem_Encode, file_Close,
        pemBlockForKey, x509_MarshalPKCS1PrivateKey, log_Info,
        bind, emit, ret, Errorf; simpl.
      change (addHost (with_write_errors env encode_err close_err))
        with (addHost env).
      repeat (destruct_scrutinee; simpl);
        rewrite <- ?app_assoc, ?drop_app_length; reflexivity.
Qed.


(** * Key dispatch *)

(** X8. [publicKey] and [pemBlockForKey] dispatch on the key type in the
    same way and never touch a file.  A block is labelled "RSA PRIVATE
    KEY" only for an RSA key and "EC PRIVATE KEY" only for an ECDSA key,
    holding the bytes the matching marshaller returned; [pemBlockForKey]
    returns no block exactly when [publicKey] returns no key (any other
    key type); and the only way it fails is an ECDSA key that cannot be
    marshalled: one line on standard error, then exit status 2. *)
Theorem key_dispatch env priv w :
  files (snd (pemBlockForKey env priv w)) = files w /\
  (publicKey priv = PubNil <-> fst (pemBlockForKey env priv w) = Done None) /\
  (forall blk,
     fst (pemBlockForKey env priv w) = Done (Some blk) ->
     (exists k, priv = PrivRSA k /\ publicKey priv = PubRSA (rsa_Public k) /\
                blk = {| pem_Type := "RSA PRIVATE KEY";
                         pem_Bytes := x509_MarshalPKCS1PrivateKey_res env k |})
     \/
     (exists k b, priv = PrivECDSA k /\
                  publicKey priv = PubECDSA (ecdsa_Public k) /\
                  x509_MarshalECPrivateKey_res env k = inl b /\
                  blk = {| pem_Type := "EC PRIVATE KEY"; pem_Bytes := b |})) /\
  (forall code,
     fst (pemBlockForKey env priv w) = Exited code ->
     code = 2 /\
     exists k err,
       priv = PrivECDSA k /\
       x509_MarshalECPrivateKey_res env k = inr err /\
       stderr_lines (events_of (pemBlockForKey env priv) w) =
         ["Unable to marshal ECDSA private key: " +:+ err]) /\
  (forall msg, fst (pemBlockForKey env priv w) <> Fatal msg) /\
  (forall msg, fst (pemBlockForKey env priv w) <> Panicked msg).
Proof.
  unfold events_of, pemBlockForKey, x509_MarshalPKCS1PrivateKey,
    x509_MarshalECPrivateKey, bind, emit, ret, os_Exit.
  destruct priv as [k|k|ty]; simpl.
  - repeat split; try done.
    intros blk [= <-]. left. by exists k.
  - destruct (x509_MarshalECPrivateKey_res env k) as [b|err] eqn:E; simpl.
    + repeat split; try done.
      intros blk [= <-]. right. by exists k, b.
    + repeat split; try done.
      * congruence.
      * exists k, err. repeat split; [done|].
        rewrite <- app_assoc, drop_app_length. reflexivity.
  - repeat split; try done.
Qed.

(** * Entry point *)

Ltac run_main :=
  unfold main, bind, os_Open, ioutil_ReadAll, ret, log_Infof, emit,
    log_LogErrorAndExit, os_Exit, fmt_Printf, fmt_Println, panic.



(** X10. Without [-key] and [-dump-config], a configuration that cannot
    be opened, read or parsed stops [main] with a fatal error naming the
    stage and the cause, before anything else happens: the world is
    unchanged, so no certificate is generated even with [-certgen].  The
    same holds, without [-certgen], when the manager cannot be
    created. *)
Theorem main_startup_failures {ManagerConfig Manager : Type}
    env (menv : MainEnv ManagerConfig Manager) w :
  flag_keygen menv = false ->
  flag_dumpConfig menv = false ->
  (forall e,
     os_Open_err menv (flag_Arg0 menv) = Some e ->
     main env menv w =
       (Fatal ("Failed to open configuration file: " +:+ e), w)) /\
  (os_Open_err menv (flag_Arg0 menv) = None ->
   files w !! flag_Arg0 menv = None ->
   exists e,
     main env menv w =
       (Fatal ("Failed to open configuration file: " +:+ e), w)) /\
  (forall f e,
     os_Open_err menv (flag_Arg0 menv) = None ->
     files w !! flag_Arg0 menv = Some f ->
     ioutil_ReadAll_err menv (flag_Arg0 menv) = Some e ->
     main env menv w =
       (Fatal ("Failed to read configuration file: " +:+ e), w)) /\
  (forall f e,
     os_Open_err menv (flag_Arg0 menv) = None ->
     files w !! flag_Arg0 menv = Some f ->
     ioutil_ReadAll_err menv (flag_Arg0 menv) = None ->
     json_Unmarshal_res menv (data f) (ManagerConfig_zero menv) = inr e ->
     main env menv w =
       (Fatal ("Failed to parse configuration data: " +:+ e), w)) /\
  (forall f conf e,
     os_Open_err menv (flag_Arg0 menv) = None ->
     files w !! flag_Arg0 menv = Some f ->
     ioutil_ReadAll_err menv (flag_Arg0 menv) = None ->
     json_Unmarshal_res menv (data f) (ManagerConfig_zero menv) = inl conf ->
     flag_certgen menv = false ->
     collector_NewManager_res menv conf = inr e ->
     main env menv w = (Fatal ("Failed to create manager: " +:+ e), w)).
Proof.
  intros Hk Hd. repeat split.
  - intros e Ho. run_main. by rewrite Hk, Hd, Ho.
  - intros Ho Hf. eexists. run_main. by rewrite Hk, Hd, Ho, Hf.
  - intros f e Ho Hf Hr. run_main. by rewrite Hk, Hd, Ho, Hf, Hr.
  - intros f e Ho Hf Hr Hp. run_main.
    by rewrite Hk, Hd, Ho, Hf, Hr, Hf, Hp.
  - intros f conf e Ho Hf Hr Hp Hc Hm. run_main.
    by rewrite Hk, Hd, Ho, Hf, Hr, Hf, Hp, Hc, Hm.
Qed.

Lemma main_startup_failures_witness :
  exists e,
    main Sample.env (Sample.menv false true false) Sample.w0 =
      (Fatal ("Failed to open configuration file: " +:+ e), Sample.w0).
Proof.
  destruct (main_startup_failures Sample.env (Sample.menv false true false)
              Sample.w0 eq_refl eq_refl) as (_ & H & _).
  apply H; reflexivity.
Defined.

(** X11. Before the manager starts, [main] writes nothing but the two
    files of [-certgen].  Without [-certgen], either the file system is
    untouched when [main] ends, or [main] has handed over to the manager
    it created from the loaded configuration, in the world it started in.
    With [-certgen], every file other than [cert.pem] and [key.pem] is
    untouched and the manager is never started: [main] does not return
    normally. *)
Theorem main_writes_only_with_certgen {ManagerConfig Manager : Type}
    env (menv : MainEnv ManagerConfig Manager) w :
  (flag_certgen menv = false ->
   files (snd (main env menv w)) = files w \/
   exists conf manager,
     collector_NewManager_res menv conf = inl manager /\
     main env menv w = manager_lifecycle menv manager w) /\
  (flag_certgen menv = true ->
   (forall n, n <> "cert.pem" -> n <> "key.pem" ->
              files (snd (main env menv w)) !! n = files w !! n) /\
   fst (main env menv w) <> Done tt).
Proof.
  split; intros Hc.
  - run_main. rewrite Hc.
    destruct (flag_keygen menv); [by left|].
    destruct (flag_dumpConfig menv).
    { destruct (json_MarshalIndent_res menv _ _ _); by left. }
    destruct (os_Open_err menv (flag_Arg0 menv)); [by left|].
    destruct (files w !! flag_Arg0 menv) as [f|] eqn:Hf; [|by left].
    simpl. destruct (ioutil_ReadAll_err menv (flag_Arg0 menv)); [by left|].
    rewrite Hf.
    destruct (json_Unmarshal_res menv _ _) as [conf|]; [|by left].
    destruct (collector_NewManager_res menv conf) as [m|] eqn:Hm;
      [|by left].
    right. by exists conf, m.
  - run_main. rewrite Hc.
    destruct (flag_keygen menv); [done|].
    destruct (flag_dumpConfig menv).
    { destruct (json_MarshalIndent_res menv _ _ _); done. }
    destruct (os_Open_err menv (flag_Arg0 menv)); [done|].
    destruct (files w !! flag_Arg0 menv) as [f|] eqn:Hf; [|done].
    simpl. destruct (ioutil_ReadAll_err menv (flag_Arg0 menv)); [done|].
    rewrite Hf.
    destruct (json_Unmarshal_res menv _ _) as [conf|]; [|done].
    pose proof (generateCert_touches_only_cert_and_key_files env
                  [Host menv conf] w) as Hframe.
    destruct (generateCert env [Host menv conf] w) as [[[e|]| | |] w'];
      simpl in *; done.
Qed.

(** X12. With [-certgen] and a configuration that loads, every
    certificate [main] creates has exactly one subject alternative name,
    the classification of the configured [Host]: one IP entry and no DNS
    entry when the host parses as an IP address, one DNS entry and no IP
    entry otherwise. *)
Theorem main_certgen_one_san {ManagerConfig Manager : Type}
    env (menv : MainEnv ManagerConfig Manager) w f conf :
  flag_keygen menv = false ->
  flag_dumpConfig menv = false ->
  flag_certgen menv = true ->
  os_Open_err menv (flag_Arg0 menv) = None ->
  ioutil_ReadAll_err menv (flag_Arg0 menv) = None ->
  files w !! flag_Arg0 menv = Some f ->
  json_Unmarshal_res menv (data f) (ManagerConfig_zero menv) = inl conf ->
  Forall (fun c =>
            let t := cc_template c in
            SANs t = [classify env (Host menv conf)] /\
            match net_ParseIP env (Host menv conf) with
            | Some ip => IPAddresses t = [ip] /\ DNSNames t = []
            | None => IPAddresses t = [] /\ DNSNames t = [Host menv conf]
            end)
         (certificates (events_of (main env menv) w)).
Proof.
  intros Hk Hd Hc Ho Hr Hf Hp.
  rewrite (main_certgen_certificates env menv w f conf Hk Hd Hc Ho Hr Hf Hp).
  apply Forall_forall. intros c Hin.
  apply generateCert_certificates_inv in Hin as (k & serial & _ & _ & ->).
  unfold SANs, classify, template_of. simpl. unfold addHost.
  by destruct (net_ParseIP env (Host menv conf)).
Qed.

Lemma main_certgen_one_san_witness :
  Forall (fun c => SANs (cc_template c) = [SanDNS ""])
         (certificates (events_of (main Sample.env
                                     (Sample.menv false true false))
                                  Sample.w_skeleton)).
Proof.
  eapply Forall_impl.
  - apply (main_certgen_one_san Sample.env (Sample.menv false true false)
             Sample.w_skeleton Sample.skeleton_file (JSON.zero Sample.cfg));
      reflexivity.
  - intros c [H _]. exact H.
Defined.

(** X13. With [-certgen] and a configuration that loads, [main] exits
    with status 0 exactly when [generateCert] got as far as opening both
    files; otherwise it stops with the fatal error "Failed to generate
    key/cert pair: " followed by the generator's error.  Either way the
    file system is the one the generator left: a [cert.pem] written before
    a failure to open [key.pem] stays on disk. *)
Theorem main_certgen_result {ManagerConfig Manager : Type}
    env (menv : MainEnv ManagerConfig Manager) w f conf :
  flag_keygen menv = false ->
  flag_dumpConfig menv = false ->
  flag_certgen menv = true ->
  os_Open_err menv (flag_Arg0 menv) = None ->
  ioutil_ReadAll_err menv (flag_Arg0 menv) = None ->
  files w !! flag_Arg0 menv = Some f ->
  json_Unmarshal_res menv (data f) (ManagerConfig_zero menv) = inl conf ->
  fst (main env menv w) =
    match outcome_of env [Host menv conf] with
    | None => Exited 0
    | Some err => Fatal ("Failed to generate key/cert pair: " +:+ err)
    end /\
  (fst (main env menv w) = Exited 0 <->
   exists der k, progress env [Host menv conf] = CertAndKey der k) /\
  files (snd (main env menv w)) = files_after env [Host menv conf] (files w).
Proof.
  intros Hk Hd Hc Ho Hr Hf Hp.
  pose proof (main_certgen_unfold env menv w f conf Hk Hd Hc Ho Hr Hf Hp)
    as Hmain.
  pose proof (generateCert_outcome env [Host menv conf] w) as Hout.
  pose proof (generateCert_files env [Host menv conf] w) as Hfiles.
  assert (Hiff : outcome_of env [Host menv conf] = None <->
                 exists der k, progress env [Host menv conf] = CertAndKey der k).
  { rewrite <- (generateCert_success_iff env [Host menv conf] w).
    rewrite Hout.
    split; [intros H; exact (f_equal Done H) | intros H; by injection H]. }
  rewrite Hmain.
  set (o := outcome_of env [Host menv conf]) in *. clearbody o.
  destruct (generateCert env [Host menv conf] w) as [out w'].
  cbn [fst snd] in Hout, Hfiles. subst out.
  destruct o as [err|]; cbn [fst snd].
  - split; [done|]. split; [|done]. rewrite <- Hiff. split; done.
  - split; [done|]. split; [|done]. by rewrite <- Hiff.
Qed.

Lemma main_certgen_result_witness :
  fst (main Sample.env_key_open_fails (Sample.menv false true false)
         Sample.w_skeleton) =
    Fatal "Failed to generate key/cert pair: failed to open key.pem for writing: permission denied".
Proof.
  exact (proj1 (main_certgen_result Sample.env_key_open_fails
                  (Sample.menv false true false) Sample.w_skeleton
                  Sample.skeleton_file (JSON.zero Sample.cfg)
                  eq_refl eq_refl eq_refl eq_refl eq_refl eq_refl eq_refl)).
Defined.
